(** * KERI ACDC verification service: a shallow embedding of
      [verification-service/app.py] and the properties of its five-stage
      verification pipeline.

    The service is Python over parsed JSON.  The embedding keeps the
    dynamic typing of the source: every value read from a request or
    from an artifact file is a [json] value, and every Python operation
    that can raise is a computation in the [result] monad whose error
    carries the text of the exception ([str(e)] in the source).

    What is outside the repository is taken as a parameter: the KERI
    library ([keri.core.serdering], [keri.core.coring]) is a record of
    functions, [KeriLib]; the artifact directory is a finite map from
    file names to file states.  Logging is left out, except where
    building the logged text can itself raise. *)

From stdpp Require Import base option strings list gmap pretty.

Set Warnings "-register-all".
Open Scope string_scope.

(** ** Exceptions *)

(** A computation either returns or raises; [Raise msg] keeps [str(e)]. *)
Inductive result (A : Type) : Type :=
| Ok (a : A)
| Raise (msg : string).
Arguments Ok {A} a.
Arguments Raise {A} msg.

#[global] Instance result_ret : MRet result := λ A a, Ok a.
#[global] Instance result_bind : MBind result := λ A B f m,
  match m with
  | Ok a => f a
  | Raise msg => Raise msg
  end.

(** [try: m except Exception: h] *)
Definition try_except {A} (m : result A) (h : string → A) : A :=
  match m with
  | Ok a => a
  | Raise msg => h msg
  end.

(** ** Python values obtained from JSON *)

(** [json.load] yields [None], booleans, integers, strings, lists and
    dicts.  Floats are not modelled.  A dict is represented by its
    association list, keys unique, in the order of the dict; where a
    list repeats a key, the first binding is the one that counts. *)
Inductive json : Type :=
| JNull
| JBool (b : bool)
| JNum (n : Z)
| JStr (s : string)
| JArr (l : list json)
| JObj (m : list (string * json)).

Fixpoint assoc {A} (k : string) (m : list (string * A)) : option A :=
  match m with
  | [] => None
  | (k', v) :: m' => if String.eqb k k' then Some v else assoc k m'
  end.

(** [bool(x)] *)
Definition truthy (x : json) : bool :=
  match x with
  | JNull => false
  | JBool b => b
  | JNum n => negb (n =? 0)%Z
  | JStr s => negb (String.eqb s "")
  | JArr l => match l with [] => false | _ => true end
  | JObj m => match m with [] => false | _ => true end
  end.

Definition bool_to_Z (b : bool) : Z := if b then 1%Z else 0%Z.

(** One half of [a == b] on dicts: every key of [a] is a key of [b] with
    an equal value. [seen] holds the keys already compared. *)
Definition dict_included {A} (eqv : A → A → bool) (b : list (string * A))
    : list string → list (string * A) → bool :=
  fix go (seen : list string) (a : list (string * A)) : bool :=
    match a with
    | [] => true
    | (k, x) :: a' =>
        if bool_decide (k ∈ seen) then go seen a'
        else
          match assoc k b with
          | Some y => eqv x y
          | None => false
          end && go (k :: seen) a'
    end.

(** [x == y]; [True == 1] and [False == 0] as in Python. Two lists are
    equal element by element; two dicts are equal when they have the
    same keys and equal values under each key, in whatever order the
    keys are listed. *)
Fixpoint py_eq (x y : json) {struct x} : bool :=
  match x, y with
  | JNull, JNull => true
  | JBool a, JBool b => Bool.eqb a b
  | JBool a, JNum n => (bool_to_Z a =? n)%Z
  | JNum n, JBool b => (n =? bool_to_Z b)%Z
  | JNum a, JNum b => (a =? b)%Z
  | JStr a, JStr b => String.eqb a b
  | JArr a, JArr b =>
      (fix go (a b : list json) : bool :=
         match a, b with
         | [], [] => true
         | x :: a', y :: b' => py_eq x y && go a' b'
         | _, _ => false
         end) a b
  | JObj a, JObj b =>
      forallb (λ kv, bool_decide (is_Some (assoc kv.1 a))) b
      && dict_included py_eq b [] a
  | _, _ => false
  end.

(** [type(x).__name__], as it appears in the text of builtin exceptions. *)
Definition type_name (x : json) : string :=
  match x with
  | JNull => "NoneType"
  | JBool _ => "bool"
  | JNum _ => "int"
  | JStr _ => "str"
  | JArr _ => "list"
  | JObj _ => "dict"
  end.

Definition no_attribute {A} (x : json) (attr : string) : result A :=
  Raise ("'" +:+ type_name x +:+ "' object has no attribute '" +:+ attr +:+ "'").

(** [d.get(k, default)]: only a dict has [get]. *)
Definition get_default (d : json) (k : string) (default : json) : result json :=
  match d with
  | JObj m => Ok (from_option id default (assoc k m))
  | _ => no_attribute d "get"
  end.

(** [d.get(k)] *)
Definition get (d : json) (k : string) : result json := get_default d k JNull.

(** [d[k]] for a string [k] *)
Definition getitem (d : json) (k : string) : result json :=
  match d with
  | JObj m =>
      match assoc k m with
      | Some v => Ok v
      | None => Raise ("'" +:+ k +:+ "'")
      end
  | JArr _ => Raise "list indices must be integers or slices, not str"
  | JStr _ => Raise "string indices must be integers, not 'str'"
  | _ => Raise ("'" +:+ type_name d +:+ "' object is not subscriptable")
  end.

(** [x[0]] *)
Definition getitem0 (x : json) : result json :=
  match x with
  | JArr (v :: _) => Ok v
  | JArr [] => Raise "list index out of range"
  | JStr (String c _) => Ok (JStr (String c ""))
  | JStr "" => Raise "string index out of range"
  | JObj _ => Raise "0"
  | _ => Raise ("'" +:+ type_name x +:+ "' object is not subscriptable")
  end.

Fixpoint is_substring (s t : string) : bool :=
  String.prefix s t ||
  match t with
  | "" => false
  | String _ t' => is_substring s t'
  end.

(** [k in x] for a string [k]: key of a dict, element of a list,
    substring of a string. *)
Definition contains (k : string) (x : json) : result bool :=
  match x with
  | JObj m => Ok (bool_decide (is_Some (assoc k m)))
  | JArr l => Ok (existsb (py_eq (JStr k)) l)
  | JStr s => Ok (is_substring k s)
  | _ => Raise ("argument of type '" +:+ type_name x +:+ "' is not iterable")
  end.

(** [len(x)] *)
Definition len (x : json) : result nat :=
  match x with
  | JStr s => Ok (String.length s)
  | JArr l => Ok (length l)
  | JObj m => Ok (length m)
  | _ => Raise ("object of type '" +:+ type_name x +:+ "' has no len()")
  end.

(** [s.startswith(p)]: a method of [str] only. *)
Definition startswith (x : json) (p : string) : result bool :=
  match x with
  | JStr s => Ok (String.prefix p s)
  | _ => no_attribute x "startswith"
  end.

(** Keys of a Python dict: hashable values, where [True] and [1] (and
    [False] and [0]) are one key. *)
Inductive pykey : Type :=
| KNone
| KInt (n : Z)
| KStr (s : string).

#[global] Instance pykey_eq_dec : EqDecision pykey.
Proof. solve_decision. Defined.

#[global] Instance pykey_countable : Countable pykey.
Proof.
  refine (inj_countable'
    (λ k, match k with
          | KNone => inl ()
          | KInt n => inr (inl n)
          | KStr s => inr (inr s)
          end)
    (λ x, match x with
          | inl () => KNone
          | inr (inl n) => KInt n
          | inr (inr s) => KStr s
          end) _).
  by intros [].
Defined.

(** [hash(x)]: lists and dicts are unhashable. *)
Definition hash_key (x : json) : result pykey :=
  match x with
  | JNull => Ok KNone
  | JBool b => Ok (KInt (bool_to_Z b))
  | JNum n => Ok (KInt n)
  | JStr s => Ok (KStr s)
  | _ => Raise ("unhashable type: '" +:+ type_name x +:+ "'")
  end.

(** ** The KERI library *)

(** What [SerderACDC(...)] leaves in [serder.sad]: always a dict. *)
Record serder : Type := Serder { sad : list (string * json) }.

(** A verification key built by [coring.Verfer(qb64=...)]. *)
Record verfer : Type := MkVerfer { qb64 : string }.

(** The calls the service makes into keripy.  Each constructor either
    returns or raises.  [SerderACDC_makify] stands for
    [SerderACDC(sad=c, makify=True)], which recomputes the version string
    and the SAID; since keripy may write them into the dict it is given,
    the call also returns that dict as it is after the call. *)
Record KeriLib : Type := {
  SerderACDC : json → result serder;
  SerderACDC_makify : json → result (serder * json);
  Prefixer : json → result unit;
  Verfer : json → result verfer;
}.

(** ** Artifact directory *)

(** A file that exists either parses ([json.load] returns) or does not
    ([open] or [json.load] raises). *)
Inductive file : Type :=
| Content (j : json)
| Unreadable (msg : string).

(** The directory [gleif-frontend/public/.well-known/keri]: what [open]
    finds under each path, a path being written relative to the
    directory unless it is absolute.  Two paths that the file system
    resolves to one file (through [..], say) are two keys with the same
    file. *)
Abbreviation artifacts := (gmap string file).

Definition gleif_incept_path : string := "gleif-incept.json".
Definition qvi_incept_path : string := "qvi-incept.json".
Definition habitats_path : string := "habitats.json".
Definition qvi_credential_path : string := "qvi-credential.json".

(** [dir / "icp" / name] relative to [dir]: pathlib lets an absolute
    [name] replace what stands before it. *)
Definition icp_file (name : string) : string :=
  if String.prefix "/" name then name else "icp/" +:+ name.

(** [inception_dir / "icp" / le_aid]: joining a path with anything but a
    string raises. *)
Definition icp_path (le_aid : json) : result string :=
  match le_aid with
  | JStr s => Ok (icp_file s)
  | _ => Raise ("unsupported operand type(s) for /: 'PosixPath' and '"
                +:+ type_name le_aid +:+ "'")
  end.

(** [if path.exists(): with open(path) as f: x = json.load(f)];
    [None] when the file does not exist. *)
Definition read_json (fs : artifacts) (path : string) : result (option json) :=
  match fs !! path with
  | None => Ok None
  | Some (Content j) => Ok (Some j)
  | Some (Unreadable msg) => Raise msg
  end.

(** ** Verifier state *)

Record MockKever : Type := { pre : json; verfers : list verfer }.

(** [verifier_baser.kevers] *)
Abbreviation kevers_t := (gmap pykey (list MockKever)).

(** The process-wide state the requests share. *)
Record verifier : Type := {
  GLEIF_ROOT_AID : json;
  kevers : kevers_t;
}.

(** [kevers.get(aid)] *)
Definition kevers_get (kv : kevers_t) (aid : json) : result (option (list MockKever)) :=
  key ← hash_key aid; Ok (kv !! key).

(** [x.get('a', {}).get('issuer')]: the issuer a credential names in
    its attributes. *)
Definition embedded_issuer (x : json) : result json :=
  a ← get_default x "a" (JObj []); get a "issuer".

(** ** Stage results *)

(** The [{'valid': ..}] dicts the stages return. *)
Inductive check (A : Type) : Type :=
| Valid (a : A)
| Invalid (reason : string).
Arguments Valid {A} a.
Arguments Invalid {A} reason.

Inductive resolution : Type :=
| Resolved (issuer_aid : json)
| Unresolved (reason : string).

Record chain_entry : Type := { level : string; aid : json }.

Record signature_report : Type :=
  { signatures : json; verified_count : nat }.

(** What [verify_acdc_credential] returns. *)
Inductive verification : Type :=
| Verified (credential_said issuer_aid : json) (issuance_chain : list chain_entry)
| Rejected (reason step : string).

Section Service.

Context (keri : KeriLib).

(** [str(x)] of a value interpolated in an f-string: Python's own
    formatting, the same for every request. *)
Context (py_str : json → string).

(** *** Key-state store *)

Definition load_inception_event (event_data : json) (kv : kevers_t) : kevers_t :=
  try_except
    (aid ← getitem event_data "i";
     k ← getitem event_data "k";
     verfer_qb64 ← getitem0 k;
     verfer ← Verfer keri verfer_qb64;
     let mock_kever := {| pre := aid; verfers := [verfer] |} in
     key ← hash_key aid;
     Ok (<[key := [mock_kever]]> kv))
    (λ _, kv).

(** The path of the Legal Entity inception record, from [habitats.json]. *)
Definition le_icp_path (fs : artifacts) : option string :=
  try_except
    (habitats ← read_json fs habitats_path;
     match habitats with
     | None => Ok None
     | Some habitats =>
         le ← get_default habitats "legal_entity" (JObj []);
         le_aid ← get le "aid";
         if truthy le_aid then p ← icp_path le_aid; Ok (Some p) else Ok None
     end)
    (λ _, None).

Definition load_if_present (ev : option json) (kv : kevers_t) : kevers_t :=
  match ev with
  | Some event_data => load_inception_event event_data kv
  | None => kv
  end.

(** The three loads run in sequence under one [try]: an exception
    raised while a file is read ends the function, and what was loaded
    before it stays in the table. *)
Definition seed_verifier_database (fs : artifacts) (kv : kevers_t) : kevers_t :=
  let le_icp_path := le_icp_path fs in
  match read_json fs gleif_incept_path with
  | Raise _ => kv
  | Ok gleif =>
      let kv := load_if_present gleif kv in
      match read_json fs qvi_incept_path with
      | Raise _ => kv
      | Ok qvi =>
          let kv := load_if_present qvi kv in
          match le_icp_path with
          | None => kv
          | Some p =>
              match read_json fs p with
              | Raise _ => kv
              | Ok le => load_if_present le kv
              end
          end
      end
  end.

(** Returns the value of the function and the state it leaves. *)
Definition refresh_verifier_state (fs : artifacts) (st : verifier) : bool * verifier :=
  match read_json fs gleif_incept_path with
  | Raise _ => (false, st)
  | Ok None =>
      (true, {| GLEIF_ROOT_AID := GLEIF_ROOT_AID st;
                kevers := seed_verifier_database fs (kevers st) |})
  | Ok (Some event_data) =>
      match get event_data "i" with
      | Raise _ => (false, st)
      | Ok new_gleif =>
          let root :=
            if truthy new_gleif && negb (py_eq new_gleif (GLEIF_ROOT_AID st))
            then new_gleif else GLEIF_ROOT_AID st in
          (true, {| GLEIF_ROOT_AID := root;
                    kevers := seed_verifier_database fs (kevers st) |})
      end
  end.

(** *** Stage 1: structure *)

Definition required_fields : list string := ["v"; "d"; "i"; "s"; "a"].

Definition check_fields (s : serder) : check serder :=
  match List.find (λ field : string, negb (bool_decide (is_Some (assoc field (sad s)))))
          required_fields with
  | Some field => Invalid ("Missing required field: " +:+ field)
  | None =>
      try_except
        (v ← getitem (JObj (sad s)) "v";
         acdc ← startswith v "ACDC";
         if acdc : bool then Ok (Valid s) else Ok (Invalid "Invalid ACDC version"))
        (λ msg, Invalid ("Structure validation error: " +:+ msg))
  end.

(** Also returns the credential as the library calls leave it. *)
Definition validate_credential_structure (credential : json) : check serder * json :=
  match SerderACDC keri credential with
  | Ok s => (check_fields s, credential)
  | Raise _ =>
      match SerderACDC_makify keri credential with
      | Ok (s, credential') => (check_fields s, credential')
      | Raise _ => (Invalid "Invalid credential format", credential)
      end
  end.

(** *** Stage 2: issuer resolution *)

(** The fallback: the subject of [qvi-credential.json].  Any failure
    leaves the value as it was. *)
Definition qvi_credential_subject (fs : artifacts) (resolved : json) : json :=
  try_except
    (qvi_cred ← read_json fs qvi_credential_path;
     match qvi_cred with
     | None => Ok resolved
     | Some qvi_cred => get qvi_cred "i"
     end)
    (λ _, resolved).

(** The checks against [habitats.json] and against the key-state table
    that follow the format check in the source only log. *)
Definition resolve_credential_and_issuer
    (fs : artifacts) (credential issuer_aid : json) : resolution :=
  try_except
    (serder ← SerderACDC keri credential;
     resolved_issuer_aid ←
       (if truthy issuer_aid then Ok issuer_aid else embedded_issuer credential);
     let resolved_issuer_aid :=
       if truthy resolved_issuer_aid then resolved_issuer_aid
       else qvi_credential_subject fs resolved_issuer_aid in
     if negb (truthy resolved_issuer_aid)
     then Ok (Unresolved "Unable to determine issuer AID")
     else
       match Prefixer keri resolved_issuer_aid with
       | Raise msg => Ok (Unresolved ("Invalid issuer AID format: " +:+ msg))
       | Ok _ => Ok (Resolved resolved_issuer_aid)
       end)
    (λ msg, Unresolved ("Resolution error: " +:+ msg)).

(** *** Stage 3: signatures *)

(** The issuer's current keys as the source retrieves them: the
    [verfers] of the last key state, when the table has one. *)
Definition issuer_verfers (st : verifier) (issuer_aid : json) : option (list verfer) :=
  try_except
    (issuer_kevers ← kevers_get (kevers st) issuer_aid;
     Ok (verfers <$> (issuer_kevers ≫= last)))
    (λ _, None).

Definition validate_signatures
    (st : verifier) (credential issuer_aid : json) : check signature_report :=
  try_except
    (has_p ← contains "p" credential;
     if negb has_p then Ok (Invalid "No signature data found")
     else
       serder ← SerderACDC keri credential;
       signatures ← get_default credential "p" (JArr []);
       if negb (truthy signatures) then Ok (Invalid "Empty signature data")
       else
         let verfers := issuer_verfers st issuer_aid in
         n ← len signatures;
         Ok (Valid {| signatures := signatures; verified_count := n |}))
    (λ msg, Invalid ("Signature validation error: " +:+ msg)).

(** *** Stage 4: chain traversal *)

(** The issuer named by [qvi-credential.json], when that credential is
    the one issued to [qvi_aid]; [None] in every other case. *)
Definition registry_gleif_aid (fs : artifacts) (qvi_aid : json) : json :=
  try_except
    (qvi_cred ← read_json fs qvi_credential_path;
     match qvi_cred with
     | None => Ok JNull
     | Some qvi_cred =>
         i ← get qvi_cred "i";
         if py_eq i qvi_aid
         then embedded_issuer qvi_cred
         else Ok JNull
     end)
    (λ _, JNull).

Definition traverse_issuance_chain
    (fs : artifacts) (credential issuer_aid : json) : check (list chain_entry) :=
  try_except
    (le_aid ← getitem credential "i";
     let qvi_aid := issuer_aid in
     let chain := [ {| level := "Legal Entity"; aid := le_aid |};
                    {| level := "QVI"; aid := qvi_aid |} ] in
     let gleif_aid := registry_gleif_aid fs qvi_aid in
     if negb (truthy gleif_aid)
     then Ok (Invalid ("Chain traversal failed: Could not find a credential issued to QVI "
                       +:+ py_str qvi_aid +:+ " in the database."))
     else Ok (Valid (chain ++ [ {| level := "GLEIF"; aid := gleif_aid |} ])%list))
    (λ msg, Invalid ("Chain traversal error: " +:+ msg)).

(** *** Stage 5: root of trust *)

Definition verify_gleif_root (st : verifier) (chain : list chain_entry) : check unit :=
  match last chain with
  | None => Invalid "Empty issuance chain"
  | Some gleif_entry =>
      if negb (String.eqb (level gleif_entry) "GLEIF")
      then Invalid "Chain does not end with GLEIF"
      else if negb (py_eq (aid gleif_entry) (GLEIF_ROOT_AID st))
      then Invalid ("GLEIF AID mismatch. Expected: " +:+ py_str (GLEIF_ROOT_AID st)
                    +:+ ", Got: " +:+ py_str (aid gleif_entry))
      else
        match kevers_get (kevers st) (GLEIF_ROOT_AID st) with
        | Raise msg => Invalid ("GLEIF database verification failed: " +:+ msg)
        | Ok gleif_kevers =>
            match gleif_kevers ≫= last with
            | None => Invalid ("GLEIF AID " +:+ py_str (GLEIF_ROOT_AID st)
                               +:+ " not found in database")
            | Some gleif_kever =>
                match verfers gleif_kever with
                | [] => Invalid "GLEIF AID has no public keys"
                | _ => Valid ()
                end
            end
        end
  end.

(** *** The pipeline *)

(** Step 1b: [True] when no DID is expected or the expected DID is an
    element of the list [credential.a.alsoKnownAs]. *)
Definition did_binding (credential expected_did : json) : result bool :=
  if truthy expected_did then
    a ← get_default credential "a" (JObj []);
    also_known_as ← get a "alsoKnownAs";
    Ok (match also_known_as with
        | JArr l => existsb (py_eq expected_did) l
        | _ => false
        end)
  else Ok true.

Definition verify_acdc_credential
    (fs : artifacts) (st : verifier)
    (credential issuer_aid expected_did : json) : verification :=
  try_except
    (let '(validation_result, credential) :=
       validate_credential_structure credential in
     match validation_result with
     | Invalid reason =>
         Ok (Rejected ("Invalid credential structure: " +:+ reason)
               "structure_validation")
     | Valid _ =>
     bound ← did_binding credential expected_did;
     if negb bound
     then Ok (Rejected "Expected DID not present in credential.a.alsoKnownAs"
                "did_binding")
     else
     match resolve_credential_and_issuer fs credential issuer_aid with
     | Unresolved reason =>
         Ok (Rejected ("Failed to resolve credential/issuer: " +:+ reason)
               "resolution")
     | Resolved issuer_aid =>
     match validate_signatures st credential issuer_aid with
     | Invalid reason =>
         Ok (Rejected ("Signature validation failed: " +:+ reason)
               "signature_validation")
     | Valid _ =>
     match traverse_issuance_chain fs credential issuer_aid with
     | Invalid reason =>
         Ok (Rejected ("Issuance chain validation failed: " +:+ reason)
               "chain_traversal")
     | Valid chain =>
     match verify_gleif_root st chain with
     | Invalid reason =>
         Ok (Rejected ("GLEIF root verification failed: " +:+ reason)
               "gleif_verification")
     | Valid _ =>
         credential_said ← get credential "d";
         Ok (Verified credential_said issuer_aid chain)
     end end end end end)
    (λ msg, Rejected ("Verification process error: " +:+ msg) "process_error").

(** *** The HTTP endpoint *)

Record response : Type := { status : Z; body : json }.

Definition chain_entry_json (e : chain_entry) : json :=
  JObj [("level", JStr (level e)); ("aid", aid e)].

(** The dict [verify_acdc_credential] returns, as [jsonify] sends it. *)
Definition verification_json (r : verification) : json :=
  match r with
  | Verified credential_said issuer_aid chain =>
      JObj [("verified", JBool true);
            ("credential_said", credential_said);
            ("issuer_aid", issuer_aid);
            ("issuance_chain", JArr (chain_entry_json <$> chain));
            ("gleif_verified", JBool true)]
  | Rejected reason step =>
      JObj [("verified", JBool false);
            ("reason", JStr reason);
            ("step", JStr step)]
  end.

(** The response of the outer [except Exception as e]. *)
Definition internal_server_error (msg : string) : response :=
  {| status := 500;
     body := JObj [("success", JBool false);
                   ("error", JStr ("Internal server error: " +:+ msg))] |}.

(** [POST /verify].  [request] is what [request.get_json()] does: return
    the parsed body or raise.  Returns the response and the state the
    request leaves. *)
Definition verify_credential
    (fs : artifacts) (st : verifier) (request : result json) : response * verifier :=
  try_except
    (data ← request;
     has_credential ←
       (if negb (truthy data) then Ok false else contains "credential" data);
     if negb has_credential
     then Ok ({| status := 400;
                 body := JObj [("success", JBool false);
                               ("error", JStr "Missing 'credential' in request body")] |},
              st)
     else
       credential ← getitem data "credential";
       issuer_aid ← get data "issuer_aid";
       expected_did ← get data "expected_did";
       _ ← get_default credential "d" (JStr "unknown");
       let st := (refresh_verifier_state fs st).2 in
       let result := verify_acdc_credential fs st credential issuer_aid expected_did in
       match result with
       | Verified _ _ _ =>
           Ok ({| status := 200;
                  body := JObj [("success", JBool true);
                                ("verified", JBool true);
                                ("message", JStr "Credential verified successfully");
                                ("details", verification_json result)] |},
               st)
       | Rejected reason _ =>
           Ok ({| status := 400;
                  body := JObj [("success", JBool false);
                                ("verified", JBool false);
                                ("error", JStr reason);
                                ("details", verification_json result)] |},
               st)
       end)
    (λ msg, (internal_server_error msg, st)).

End Service.

(** ** The key-state table as a sequence of inserts

    A view of [seed_verifier_database] used in the proofs: every load
    either inserts one entry or leaves the table alone. *)

Section KeyStateView.

Context (keri : KeriLib).

(** What one inception record contributes, if anything. *)
Definition inception_entry (event_data : json) : option (pykey * list MockKever) :=
  try_except
    (aid ← getitem event_data "i";
     k ← getitem event_data "k";
     verfer_qb64 ← getitem0 k;
     verfer ← Verfer keri verfer_qb64;
     key ← hash_key aid;
     Ok (Some (key, [ {| pre := aid; verfers := [verfer] |} ])))
    (λ _, None).

Definition put (e : option (pykey * list MockKever)) (kv : kevers_t) : kevers_t :=
  match e with
  | Some (key, v) => <[key := v]> kv
  | None => kv
  end.

Definition put_all (es : list (option (pykey * list MockKever))) (kv : kevers_t) : kevers_t :=
  foldl (λ kv e, put e kv) kv es.

(** The last entry of [es] for [key]. *)
Fixpoint written (key : pykey) (es : list (option (pykey * list MockKever)))
    : option (list MockKever) :=
  match es with
  | [] => None
  | e :: es' =>
      match written key es' with
      | Some v => Some v
      | None =>
          match e with
          | Some (key', v) => if decide (key' = key) then Some v else None
          | None => None
          end
      end
  end.

(** The inserts [seed_verifier_database] makes for a given directory. *)
Definition seed_entries (fs : artifacts) : list (option (pykey * list MockKever)) :=
  let entry ev := ev ≫= inception_entry in
  match read_json fs gleif_incept_path with
  | Raise _ => []
  | Ok gleif =>
      entry gleif ::
      match read_json fs qvi_incept_path with
      | Raise _ => []
      | Ok qvi =>
          entry qvi ::
          match le_icp_path fs with
          | None => []
          | Some p =>
              match read_json fs p with
              | Raise _ => []
              | Ok le => [entry le]
              end
          end
      end
  end.

End KeyStateView.

(** ** Predicates used in the statements *)

(** Every entry of the table is one key state holding one key. *)
Definition single_key (kv : kevers_t) : Prop :=
  ∀ key kevs, kv !! key = Some kevs →
    ∃ aid v, kevs = [ {| pre := aid; verfers := [v] |} ].

(** The current key state of the configured trust root, when the table
    has one. *)
Definition root_key_state (st : verifier) : option MockKever :=
  match kevers_get (kevers st) (GLEIF_ROOT_AID st) with
  | Ok gleif_kevers => gleif_kevers ≫= last
  | Raise _ => None
  end.

(** The identifier at the top of a chain. *)
Definition top (chain : list chain_entry) : option json := aid <$> last chain.

(** The issuer as the three sources give it, in priority order: the
    caller's override; else the issuer embedded in the attributes; else
    the subject of the parent credential in the artifact store. *)
Inductive source_yields (fs : artifacts) (credential issuer_aid : json) : json → Prop :=
| from_override :
    truthy issuer_aid = true →
    source_yields fs credential issuer_aid issuer_aid
| from_attributes x :
    truthy issuer_aid = false →
    embedded_issuer credential = Ok x →
    truthy x = true →
    source_yields fs credential issuer_aid x
| from_parent_credential b qvi_cred x :
    truthy issuer_aid = false →
    embedded_issuer credential = Ok b →
    truthy b = false →
    fs !! qvi_credential_path = Some (Content qvi_cred) →
    get qvi_cred "i" = Ok x →
    truthy x = true →
    source_yields fs credential issuer_aid x.

(** ** A stand-in for the library and the two-level scenario

    Concrete runs need a library.  [Scenario.keri] is a small one with
    the shape of keripy's checks: a credential parses when it is a dict
    with a version string whose [d] field equals a digest of the other
    fields ([p] apart, which the issuer attaches after the digest is
    taken); [makify] writes the digest into [d]; an identifier prefix
    starts with [E] and a verification key with [D]. *)
Module Scenario.

Definition string_sum (s : string) : Z :=
  foldr (λ c acc, (Z.of_nat (Ascii.nat_of_ascii c) + 31 * acc) mod 1000003)%Z 7%Z
        (String.list_ascii_of_string s).

Fixpoint checksum (x : json) : Z :=
  match x with
  | JNull => 1
  | JBool b => 2 + bool_to_Z b
  | JNum n => (5 + n) mod 1000003
  | JStr s => string_sum s
  | JArr l =>
      (fix go (l : list json) : Z :=
         match l with
         | [] => 11
         | y :: l' => (checksum y + 37 * go l') mod 1000003
         end) l
  | JObj m =>
      (fix go (m : list (string * json)) : Z :=
         match m with
         | [] => 13
         | (k, y) :: m' => (string_sum k + 41 * checksum y + 43 * go m') mod 1000003
         end) m
  end%Z.

Definition without (ks : list string) (m : list (string * json)) : list (string * json) :=
  List.filter (λ kv, negb (bool_decide (kv.1 ∈ ks))) m.

(** The toy self-addressing identifier of a credential body. *)
Definition said (m : list (string * json)) : json :=
  JStr ("E" +:+ pretty (checksum (JObj (without ["d"; "p"] m)))).

Fixpoint set_field (k : string) (v : json) (m : list (string * json)) : list (string * json) :=
  match m with
  | [] => [(k, v)]
  | (k', v') :: m' => if String.eqb k k' then (k, v) :: m' else (k', v') :: set_field k v m'
  end.

Definition keri : KeriLib := {|
  SerderACDC c :=
    match c with
    | JObj m =>
        match assoc "v" m, assoc "d" m with
        | Some (JStr _), Some d =>
            if py_eq d (said m) then Ok (Serder m)
            else Raise "Invalid sad for Serder"
        | _, _ => Raise "Missing version string or said field"
        end
    | _ => Raise "Invalid sad for Serder"
    end;
  SerderACDC_makify c :=
    match c with
    | JObj m =>
        match assoc "v" m with
        | Some (JStr _) => let m' := set_field "d" (said m) m in Ok (Serder m', c)
        | _ => Raise "Missing version string"
        end
    | _ => Raise "Invalid sad for Serder"
    end;
  Prefixer x :=
    match x with
    | JStr s => if String.prefix "E" s then Ok () else Raise "Invalid prefix code"
    | _ => Raise "Invalid prefix"
    end;
  Verfer x :=
    match x with
    | JStr s => if String.prefix "D" s then Ok (MkVerfer s) else Raise "Invalid verfer code"
    | _ => Raise "Invalid verfer"
    end;
|}.

(** [str(x)], exact on the strings the scenario formats. *)
Definition py_str (x : json) : string :=
  match x with
  | JStr s => s
  | JNull => "None"
  | JBool true => "True"
  | JBool false => "False"
  | JNum n => pretty n
  | JArr _ => "[...]"
  | JObj _ => "{...}"
  end.

(** Root [R], intermediate [Q], leaf [L] and their keys. *)
Definition R : json := JStr "EGLEIF-root-aid".
Definition Q : json := JStr "EQVI-aid".
Definition L : json := JStr "ELegalEntity-aid".
Definition key_R : string := "DGLEIF-key".
Definition key_Q : string := "DQVI-key".
Definition key_L : string := "DLegalEntity-key".

(** An inception record as the generator writes it. *)
Definition incept (i : json) (k : string) : json :=
  JObj [("v", JStr "KERI10JSON00011c_"); ("i", i); ("s", JStr "0");
        ("t", JStr "icp"); ("kt", JStr "1"); ("k", JArr [JStr k]);
        ("nt", JStr "1"); ("n", JArr []); ("bt", JStr "0"); ("b", JArr []);
        ("c", JArr []); ("a", JArr [])].

(** A credential as the generator writes it: body, then the digest in
    [d], then the signature at [p.d]. *)
Definition acdc (i : json) (s : string) (a : json) (sig : string) : json :=
  let body := [("v", JStr "ACDC10JSON00017a_"); ("d", JStr ""); ("i", i);
               ("s", JStr s); ("a", a)] in
  JObj (set_field "d" (said body) body ++ [("p", JObj [("d", JStr sig)])])%list.

(** A signature names the key that made it. *)
Definition sign (key : string) : string := "0B-signed-by-" +:+ key.

Definition C1 : json :=
  acdc Q "EQualifiedvLEIIssuerSchema"
    (JObj [("issuer", R); ("issuee", Q); ("qualified", JBool true)])
    (sign key_R).

Definition did : json := JStr "did:iota:0xabc".

Definition C2_signed_by (key : string) : json :=
  acdc L "EDesignatedAliasesSchema" (JObj [("alsoKnownAs", JArr [did])]) (sign key).

Definition C2 : json := C2_signed_by key_Q.

Definition habitats : json :=
  JObj [("gleif", JObj [("aid", R); ("salt", JNull)]);
        ("qvi", JObj [("aid", Q); ("salt", JNull)]);
        ("legal_entity", JObj [("aid", L); ("salt", JNull)])].

Definition store : artifacts :=
  <[ "gleif-incept.json" := Content (incept R key_R) ]>
  (<[ "qvi-incept.json" := Content (incept Q key_Q) ]>
  (<[ "habitats.json" := Content habitats ]>
  (<[ "icp/ELegalEntity-aid" := Content (incept L key_L) ]>
  (<[ "qvi-credential.json" := Content C1 ]> ∅)))).

(** The verifier as it starts: trust root from the environment, empty
    key-state table. *)
Definition start : verifier := {| GLEIF_ROOT_AID := R; kevers := ∅ |}.

(** The verifier after a refresh over [store]. *)
Definition ready : verifier := (refresh_verifier_state keri store start).2.

(** The chain the scenario expects. *)
Definition chain_LQR : list chain_entry :=
  [ {| level := "Legal Entity"; aid := L |};
    {| level := "QVI"; aid := Q |};
    {| level := "GLEIF"; aid := R |} ].

(** A key that is in nobody's key state. *)
Definition unrelated_key : string := "Dunrelated-key".

Definition with_field (k : string) (v : json) (c : json) : json :=
  match c with
  | JObj m => JObj (set_field k v m)
  | _ => c
  end.

(** [C2] with one byte of its attribute changed and [d] as it was. *)
Definition C2_tampered : json :=
  with_field "a" (JObj [("alsoKnownAs", JArr [JStr "did:iota:0xabd"])]) C2.

(** A credential in compact form: [a] is the identifier of the
    attribute block, not the block. *)
Definition C2_compact : json :=
  acdc L "EDesignatedAliasesSchema" (JStr "EAttributeBlockSaid") (sign key_Q).

(** The store with a root inception record that is not JSON. *)
Definition store_gleif_unreadable : artifacts :=
  <[ "gleif-incept.json" := Unreadable "Expecting value: line 1 column 1 (char 0)" ]> store.

(** The store with a root inception record that lacks its fields. *)
Definition store_gleif_incomplete : artifacts :=
  <[ "gleif-incept.json" := Content (JObj [("v", JStr "KERI10JSON00011c_")]) ]> store.

End Scenario.

(** ** Two more stand-ins for the library

    In both the digest of a body covers every field but [d], so a
    credential to which [p] is attached after [d] was computed does not
    parse as it stands. [v11] rebuilds it under [makify=True] and writes
    the new digest into the dict it is given; [v12] refuses a body that
    carries [p], with or without [makify]. *)
Module Keripy.

Definition said (m : list (string * json)) : json :=
  JStr ("E" +:+ pretty (Scenario.checksum (JObj (Scenario.without ["d"] m)))).

Definition parse (m : list (string * json)) : result serder :=
  match assoc "v" m, assoc "d" m with
  | Some (JStr _), Some d =>
      if py_eq d (said m) then Ok (Serder m)
      else Raise "Invalid sad for Serder"
  | _, _ => Raise "Missing version string or said field"
  end.

Definition rebuild (m : list (string * json)) : result (serder * json) :=
  match assoc "v" m with
  | Some (JStr _) =>
      let m' := Scenario.set_field "d" (said m) m in Ok (Serder m', JObj m')
  | _ => Raise "Missing version string"
  end.

Definition v11 : KeriLib := {|
  SerderACDC c :=
    match c with
    | JObj m => parse m
    | _ => Raise "Invalid sad for Serder"
    end;
  SerderACDC_makify c :=
    match c with
    | JObj m => rebuild m
    | _ => Raise "Invalid sad for Serder"
    end;
  Prefixer := Prefixer Scenario.keri;
  Verfer := Verfer Scenario.keri;
|}.

Definition v12 : KeriLib := {|
  SerderACDC c :=
    match c with
    | JObj m =>
        if bool_decide (is_Some (assoc "p" m))
        then Raise "Unallowed extra field p"
        else parse m
    | _ => Raise "Invalid sad for Serder"
    end;
  SerderACDC_makify c :=
    match c with
    | JObj m =>
        if bool_decide (is_Some (assoc "p" m))
        then Raise "Unallowed extra field p"
        else rebuild m
    | _ => Raise "Invalid sad for Serder"
    end;
  Prefixer := Prefixer Scenario.keri;
  Verfer := Verfer Scenario.keri;
|}.

End Keripy.

(** ** The issuer pipeline ([did-management/generate-credentials.py])

    The script takes a DID on the command line, asks the library for
    three identifiers, two schemas, two credentials and their
    signatures, and writes the artifact directory the verifier reads.
    Characters are code points below 256; a file opened for writing is
    taken to open, under the name the script joins to the directory. *)

(** [c.isspace()] for a code point below 256. *)
Definition is_space (c : Ascii.ascii) : bool :=
  let n := Ascii.nat_of_ascii c in
  (((9 <=? n) && (n <=? 13)) || ((28 <=? n) && (n <=? 32))
   || (n =? 133) || (n =? 160))%nat.

Fixpoint lstrip (s : string) : string :=
  match s with
  | String c s' => if is_space c then lstrip s' else s
  | "" => ""
  end.

Fixpoint rstrip (s : string) : string :=
  match s with
  | "" => ""
  | String c s' =>
      match rstrip s' with
      | "" => if is_space c then "" else String c ""
      | r => String c r
      end
  end.

(** [s.strip()] *)
Definition strip (s : string) : string := rstrip (lstrip s).

(** [s.count(sub)] counts occurrences that do not overlap, from the
    left; [skip] is what is left of the occurrence just counted. *)
Fixpoint count_from (sub : string) (skip : nat) (s : string) : nat :=
  match s with
  | "" =>
      match skip with
      | 0 => if String.prefix sub "" then 1 else 0
      | S _ => 0
      end
  | String c s' =>
      match skip with
      | S k => count_from sub k s'
      | 0 =>
          if String.prefix sub s
          then S (count_from sub (String.length sub - 1) s')
          else count_from sub 0 s'
      end
  end.

Definition count (sub s : string) : nat := count_from sub 0 s.

(** Lines 50-58: the argument is stripped and, when it holds the prefix
    [did:iota:] more than once, cut before the second occurrence.
    [String.index n sub s] is [s.find(sub, n)], with [None] for [-1]. *)
Definition sanitize_did (raw_did : string) : string :=
  let iota_did := strip raw_did in
  if (1 <? count "did:iota:" iota_did)%nat then
    match String.index 0 "did:iota:" iota_did with
    | Some first =>
        match String.index (first + 1) "did:iota:" iota_did with
        | Some second => String.substring 0 second iota_did
        | None => iota_did
        end
    | None => iota_did
    end
  else iota_did.

(** A habitat, as far as the script reads it: [hab.pre],
    [hab.kever.verfers[0].qb64] and
    [hab.salt.qb64 if hasattr(hab, 'salt') else None]. *)
Record Hab : Type := {
  hab_pre : string;
  hab_key : result string;
  hab_salt : result json;
}.

(** A credential made by the library: [.sad], [.said] and [.raw]. *)
Record Acdc : Type := {
  acdc_sad : list (string * json);
  acdc_said : string;
  acdc_raw : string;
}.

(** The calls the script makes into keripy: [Habery(name, temp=True)]
    followed by [makeHab(name)]; [Schemer(sed=...).said];
    [SerderACDC(sad=..., makify=True)]; and [hab.sign(ser=raw,
    indexed=True)], as the [qb64] of each signature. *)
Record KeriIssuer : Type := {
  makeHab : string → result Hab;
  Schemer : json → result string;
  makify : json → result Acdc;
  sign : Hab → string → result (list string);
}.

(** [d[k] = v] on a dict: the value is replaced in place, a new key goes
    to the end. *)
Fixpoint setitem (k : string) (v : json) (m : list (string * json)) : list (string * json) :=
  match m with
  | [] => [(k, v)]
  | (k', v') :: m' =>
      if String.eqb k k' then (k, v) :: m' else (k', v') :: setitem k v m'
  end.

(** What the script leaves in a file: JSON written by [json.dump], or
    text. *)
Inductive output_file : Type :=
| JsonFile (j : json)
| TextFile (s : string).

Abbreviation output_dir := (gmap string output_file).

(** The directory as the verifier reads it; [json_loads] is Python's
    JSON parser on the text of a file. *)
Definition as_artifacts (json_loads : string → result json) (out : output_dir) : artifacts :=
  (λ f, match f with
        | JsonFile j => Content j
        | TextFile s =>
            match json_loads s with
            | Ok j => Content j
            | Raise msg => Unreadable msg
            end
        end) <$> out.

(** A run of the script: it returns or raises, and leaves the files it
    wrote before. *)
Definition script (A : Type) : Type := output_dir → result A * output_dir.

Definition script_bind {A B} (m : script A) (f : A → script B) : script B :=
  λ out,
    match m out with
    | (Ok a, out') => f a out'
    | (Raise msg, out') => (Raise msg, out')
    end.

Definition call {A} (r : result A) : script A := λ out, (r, out).

Definition write (name : string) (f : output_file) : script unit :=
  λ out, (Ok (), <[name := f]> out).

Notation "x ←$ m ; k" := (script_bind m (λ x, k))
  (at level 20, m at level 100, k at level 200, only parsing, right associativity).
Notation "m ;;$ k" := (script_bind m (λ _, k))
  (at level 100, k at level 200, only parsing, right associativity).

(** The inception record the script writes for a habitat. *)
Definition icp_data (aid key : string) : json :=
  JObj [("v", JStr "KERI10JSON00011c_"); ("i", JStr aid); ("s", JStr "0");
        ("t", JStr "icp"); ("kt", JStr "1"); ("k", JArr [JStr key]);
        ("nt", JStr "1"); ("n", JArr []); ("bt", JStr "0"); ("b", JArr []);
        ("c", JArr []); ("a", JArr [])].

Definition qvi_schema : json :=
  JObj [("$id", JStr "QUALIFIED_VLEI_ISSUER_SCHEMA");
        ("$schema", JStr "http://json-schema.org/draft-07/schema#");
        ("type", JStr "object");
        ("properties",
         JObj [("issuer", JObj [("type", JStr "string")]);
               ("issuee", JObj [("type", JStr "string")]);
               ("qualified", JObj [("type", JStr "boolean")])]);
        ("required", JArr [JStr "issuer"; JStr "issuee"; JStr "qualified"])].

Definition da_schema : json :=
  JObj [("$id", JStr "DESIGNATED_ALIASES_SCHEMA");
        ("$schema", JStr "http://json-schema.org/draft-07/schema#");
        ("type", JStr "object");
        ("properties",
         JObj [("alsoKnownAs",
                JObj [("type", JStr "array");
                      ("items", JObj [("type", JStr "string")])])]);
        ("required", JArr [JStr "alsoKnownAs"])].

(** The body handed to [makify]: [d] is empty, to be filled. *)
Definition acdc_body (i s : string) (a : json) : json :=
  JObj [("v", JStr "ACDC10JSON00017a_"); ("d", JStr ""); ("i", JStr i);
        ("s", JStr s); ("a", a)].

(** [if signatures: acdc._sad["p"] = {"d": signatures[0].qb64}], then
    [acdc.sad]. *)
Definition with_proof (acdc : Acdc) (signatures : list string) : list (string * json) :=
  match signatures with
  | sig :: _ => setitem "p" (JObj [("d", JStr sig)]) (acdc_sad acdc)
  | [] => acdc_sad acdc
  end.

Definition habitat_entry (aid : string) (salt : json) : json :=
  JObj [("aid", JStr aid); ("salt", salt)].

(** [main()], with [args] for [sys.argv[1:]] and [twin_wallet] for what
    reading [twin-wallet.json] gives. [sys.exit(1)] raises [SystemExit],
    whose text is [1]. *)
Definition main (keri : KeriIssuer) (args : list string) (twin_wallet : result json)
    : script unit :=
  match args with
  | [raw_did] =>
      let iota_did := sanitize_did raw_did in
      twin_wallet ←$ call twin_wallet;
      legal_entity_did ←$ call (getitem twin_wallet "did");
      gleif_hab ←$ call (makeHab keri "gleif");
      let gleif_aid := hab_pre gleif_hab in
      qvi_hab ←$ call (makeHab keri "qvi");
      let qvi_aid := hab_pre qvi_hab in
      legal_entity_hab ←$ call (makeHab keri "legal-entity");
      let legal_entity_aid := hab_pre legal_entity_hab in
      gleif_key ←$ call (hab_key gleif_hab);
      write "gleif-incept.json" (JsonFile (icp_data gleif_aid gleif_key)) ;;$
      qvi_key ←$ call (hab_key qvi_hab);
      write "qvi-incept.json" (JsonFile (icp_data qvi_aid qvi_key)) ;;$
      qvi_schema_said ←$ call (Schemer keri qvi_schema);
      let qvi_credential_data :=
        JObj [("issuer", JStr gleif_aid); ("issuee", JStr qvi_aid);
              ("qualified", JBool true)] in
      qvi_acdc ←$ call (makify keri (acdc_body qvi_aid qvi_schema_said qvi_credential_data));
      qvi_signatures ←$ call (sign keri gleif_hab (acdc_raw qvi_acdc));
      let qvi_credential := with_proof qvi_acdc qvi_signatures in
      write "qvi-credential.json" (JsonFile (JObj qvi_credential)) ;;$
      schema_said ←$ call (Schemer keri da_schema);
      let da_credential_data := JObj [("alsoKnownAs", JArr [JStr iota_did])] in
      da_acdc ←$ call (makify keri (acdc_body legal_entity_aid schema_said da_credential_data));
      da_signatures ←$ call (sign keri qvi_hab (acdc_raw da_acdc));
      let credential_said := acdc_said da_acdc in
      let designated_aliases_credential := with_proof da_acdc da_signatures in
      write "legal-entity-credential.json" (JsonFile (JObj designated_aliases_credential)) ;;$
      write credential_said (JsonFile (JObj designated_aliases_credential)) ;;$
      write "credential-said.txt" (TextFile credential_said) ;;$
      legal_entity_key ←$ call (hab_key legal_entity_hab);
      write (icp_file legal_entity_aid)
        (JsonFile (icp_data legal_entity_aid legal_entity_key)) ;;$
      gleif_salt ←$ call (hab_salt gleif_hab);
      qvi_salt ←$ call (hab_salt qvi_hab);
      legal_entity_salt ←$ call (hab_salt legal_entity_hab);
      let habitats :=
        JObj [("gleif", habitat_entry gleif_aid gleif_salt);
              ("qvi", habitat_entry qvi_aid qvi_salt);
              ("legal_entity", habitat_entry legal_entity_aid legal_entity_salt)] in
      write "habitats.json" (JsonFile habitats)
  | _ => call (Raise "1")
  end.

(** A stand-in for the issuer's side of the library, matching
    [Scenario.keri]: identifiers and keys are named after the habitat, a
    credential gets the toy digest of its body in [d], and a signature
    names the key that made it. *)
Module IssuerScenario.

Definition hab (name : string) : Hab :=
  {| hab_pre := "E" +:+ name +:+ "-aid";
     hab_key := Ok ("D" +:+ name +:+ "-key");
     hab_salt := Ok JNull |}.

Definition said_text (m : list (string * json)) : string :=
  "E" +:+ pretty (Scenario.checksum (JObj (Scenario.without ["d"; "p"] m))).

Definition issuer : KeriIssuer := {|
  makeHab name := Ok (hab name);
  Schemer sed := Ok ("E" +:+ pretty (Scenario.checksum sed));
  makify body :=
    match body with
    | JObj m =>
        Ok {| acdc_sad := Scenario.set_field "d" (JStr (said_text m)) m;
              acdc_said := said_text m;
              acdc_raw := said_text m |}
    | _ => Raise "Invalid sad for Serder"
    end;
  sign h raw :=
    match hab_key h with
    | Ok key => Ok [Scenario.sign key]
    | Raise msg => Raise msg
    end;
|}.

(** [json.loads] on the one text file of the directory. *)
Definition json_loads (text : string) : result json :=
  Raise "Expecting value: line 1 column 1 (char 0)".

(** The directory a run of the script leaves. *)
Definition out : output_dir :=
  (main issuer ["did:iota:0xabc"] (Ok (JObj [("did", JStr "did:iota:0xabc")])) ∅).2.

Definition store : artifacts := as_artifacts json_loads out.

(** The credential the script leaves for the Legal Entity. *)
Definition credential : json :=
  match store !! "legal-entity-credential.json" with
  | Some (Content j) => j
  | _ => JNull
  end.

End IssuerScenario.

(** ** Properties *)

(** *** Python values *)

Lemma json_nested_ind (P : json → Prop) :
  P JNull →
  (∀ b, P (JBool b)) →
  (∀ n, P (JNum n)) →
  (∀ s, P (JStr s)) →
  (∀ l, Forall P l → P (JArr l)) →
  (∀ m, Forall (λ kv, P kv.2) m → P (JObj m)) →
  ∀ x, P x.
Proof.
  intros Hnull Hbool Hnum Hstr Harr Hobj.
  fix IH 1. intros [| b | n | s | l | m].
  - exact Hnull.
  - apply Hbool.
  - apply Hnum.
  - apply Hstr.
  - apply Harr. induction l as [| y l IHl]; constructor; [apply IH | exact IHl].
  - apply Hobj. induction m as [| [k y] m IHm]; constructor; [apply IH | exact IHm].
Qed.

Lemma assoc_app_fresh {A} k (pre suf : list (string * A)) :
  k ∉ pre.*1 → assoc k (pre ++ suf)%list = assoc k suf.
Proof.
  induction pre as [| [k' v'] pre IH]; simpl; [done |]. intros Hk.
  apply not_elem_of_cons in Hk as [Hne Hk].
  apply String.eqb_neq in Hne as ->. by apply IH.
Qed.

Lemma assoc_is_Some {A} k (v : A) m : (k, v) ∈ m → is_Some (assoc k m).
Proof.
  induction m as [| [k' v'] m IH]; [by intros ?%elem_of_nil |].
  intros [[= <- <-] | Hin]%elem_of_cons; simpl.
  - rewrite String.eqb_refl. by eexists.
  - destruct (String.eqb k k'); [by eexists | by apply IH].
Qed.

Lemma dict_included_refl {A} (eqv : A → A → bool) pre suf seen :
  (∀ k, k ∈ pre.*1 → k ∈ seen) →
  Forall (λ kv, eqv kv.2 kv.2 = true) suf →
  dict_included eqv (pre ++ suf)%list seen suf = true.
Proof.
  intros Hseen Hsuf. revert pre seen Hseen.
  induction Hsuf as [| [k x] suf Hx _ IH]; intros pre seen Hseen; simpl; [done |].
  replace (pre ++ (k, x) :: suf)%list with ((pre ++ [(k, x)]) ++ suf)%list
    by (by rewrite <- app_assoc).
  case_bool_decide as Hk.
  - apply IH. intros k'. rewrite fmap_app, elem_of_app. simpl.
    intros [? | ->%list_elem_of_singleton]; auto.
  - assert (k ∉ pre.*1) as Hfresh by (intros ?; by apply Hk, Hseen).
    rewrite <- app_assoc. rewrite assoc_app_fresh by done. simpl.
    rewrite String.eqb_refl. simpl in Hx. rewrite Hx. simpl.
    replace (pre ++ (k, x) :: suf)%list with ((pre ++ [(k, x)]) ++ suf)%list
      by (by rewrite <- app_assoc).
    apply IH. intros k'. rewrite fmap_app, elem_of_app. simpl.
    intros [? | ->%list_elem_of_singleton]; [right; auto | left].
Qed.

Lemma py_eq_refl x : py_eq x x = true.
Proof.
  induction x as [| b | n | s | l IHl | m IHm] using json_nested_ind; simpl.
  - reflexivity.
  - by destruct b.
  - apply Z.eqb_refl.
  - apply String.eqb_refl.
  - induction IHl as [| y l Hy _ IH]; [reflexivity |]. by rewrite Hy, IH.
  - apply andb_true_intro. split.
    + apply forallb_forall. intros [k v] Hin. apply bool_decide_eq_true.
      by apply (assoc_is_Some k v), list_elem_of_In.
    + by apply (dict_included_refl py_eq []).
Qed.

(** *** The key-state table is a sequence of inserts *)

Section KeyState.

Context (keri : KeriLib).

Lemma load_inception_event_put event_data kv :
  load_inception_event keri event_data kv = put (inception_entry keri event_data) kv.
Proof.
  unfold load_inception_event, inception_entry.
  destruct (getitem event_data "i") as [aid |]; simpl; [| done].
  destruct (getitem event_data "k") as [k |]; simpl; [| done].
  destruct (getitem0 k) as [q |]; simpl; [| done].
  destruct (Verfer keri q) as [v |]; simpl; [| done].
  by destruct (hash_key aid).
Qed.

Lemma lookup_put_all es kv key :
  put_all es kv !! key = from_option Some (kv !! key) (written key es).
Proof.
  revert kv. induction es as [| e es IH]; intros kv; simpl; [done |].
  unfold put_all in *. simpl. rewrite IH.
  destruct (written key es); simpl; [done |].
  destruct e as [[key' v] |]; simpl; [| done].
  rewrite lookup_insert. by destruct (decide (key' = key)).
Qed.

Lemma put_all_idempotent es kv : put_all es (put_all es kv) = put_all es kv.
Proof.
  apply map_eq. intros key. rewrite !lookup_put_all.
  by destruct (written key es).
Qed.

Lemma load_if_present_put ev kv :
  load_if_present keri ev kv = put (ev ≫= inception_entry keri) kv.
Proof. destruct ev; simpl; [apply load_inception_event_put | done]. Qed.

Lemma seed_verifier_database_put_all fs kv :
  seed_verifier_database keri fs kv = put_all (seed_entries keri fs) kv.
Proof.
  unfold seed_verifier_database, seed_entries, put_all.
  destruct (read_json fs gleif_incept_path) as [gleif |]; simpl; [| done].
  rewrite load_if_present_put.
  destruct (read_json fs qvi_incept_path) as [qvi |]; simpl; [| done].
  rewrite load_if_present_put.
  destruct (le_icp_path fs) as [p |]; simpl; [| done].
  destruct (read_json fs p) as [le |]; simpl; [| done].
  by rewrite load_if_present_put.
Qed.

Lemma seed_verifier_database_idempotent fs kv :
  seed_verifier_database keri fs (seed_verifier_database keri fs kv)
  = seed_verifier_database keri fs kv.
Proof. rewrite !seed_verifier_database_put_all. apply put_all_idempotent. Qed.

(** C7. Calling refresh twice over unchanged artifact files gives the
    same return value and leaves the same verifier state (the same
    key-state table and the same trust-root identifier) as calling it
    once. *)
Theorem refresh_verifier_state_idempotent fs st :
  refresh_verifier_state keri fs (refresh_verifier_state keri fs st).2
  = refresh_verifier_state keri fs st.
Proof.
  unfold refresh_verifier_state.
  destruct (read_json fs gleif_incept_path) as [[event_data |] |]; simpl;
    [| by rewrite seed_verifier_database_idempotent | done].
  destruct (get event_data "i") as [new_gleif |]; simpl; [| done].
  rewrite seed_verifier_database_idempotent. do 2 f_equal.
  destruct (truthy new_gleif) eqn:Ht; simpl; [| done].
  destruct (py_eq new_gleif (GLEIF_ROOT_AID st)) eqn:He; simpl.
  - by rewrite He.
  - by rewrite py_eq_refl.
Qed.

End KeyState.

(** *** One key per identifier *)

Section SingleKey.

Context (keri : KeriLib).

Lemma inception_entry_single event_data key kevs :
  inception_entry keri event_data = Some (key, kevs) →
  ∃ aid v, kevs = [ {| pre := aid; verfers := [v] |} ].
Proof.
  unfold inception_entry.
  destruct (getitem event_data "i") as [aid |]; simpl; [| done].
  destruct (getitem event_data "k") as [k |]; simpl; [| done].
  destruct (getitem0 k) as [q |]; simpl; [| done].
  destruct (Verfer keri q) as [v |]; simpl; [| done].
  destruct (hash_key aid); simpl; [| done].
  intros [= <- <-]. by exists aid, v.
Qed.

Lemma put_single_key e kv :
  (∀ key kevs, e = Some (key, kevs) → ∃ aid v, kevs = [ {| pre := aid; verfers := [v] |} ]) →
  single_key kv → single_key (put e kv).
Proof.
  intros He Hkv. destruct e as [[key' v'] |]; simpl; [| done].
  intros key kevs. rewrite lookup_insert.
  destruct (decide (key' = key)) as [-> |]; simpl; [| apply Hkv].
  intros [= <-]. by apply (He key v').
Qed.

Lemma load_if_present_single_key ev kv :
  single_key kv → single_key (load_if_present keri ev kv).
Proof.
  rewrite load_if_present_put. apply put_single_key.
  intros key kevs. destruct ev as [event_data |]; simpl; [| done].
  apply inception_entry_single.
Qed.

Lemma seed_verifier_database_single_key fs kv :
  single_key kv → single_key (seed_verifier_database keri fs kv).
Proof.
  intros Hkv. unfold seed_verifier_database.
  destruct (read_json fs gleif_incept_path) as [gleif |]; [| done].
  destruct (read_json fs qvi_incept_path) as [qvi |];
    [| by apply load_if_present_single_key].
  destruct (le_icp_path fs) as [p |];
    [| by do 2 apply load_if_present_single_key].
  destruct (read_json fs p) as [le |];
    by repeat apply load_if_present_single_key.
Qed.

Lemma load_inception_event_first_key event_data aid k0 rest v key kv :
  getitem event_data "i" = Ok aid →
  getitem event_data "k" = Ok (JArr (k0 :: rest)) →
  Verfer keri k0 = Ok v →
  hash_key aid = Ok key →
  load_inception_event keri event_data kv
  = <[key := [ {| pre := aid; verfers := [v] |} ]]> kv.
Proof.
  intros Hi Hk Hv Hkey. unfold load_inception_event.
  rewrite Hi; simpl. rewrite Hk; simpl. rewrite Hv; simpl. by rewrite Hkey.
Qed.

(** C10. A load stores only the first element of the record's key list
    [k], whatever follows it; and when every entry of the table holds
    exactly one public key (as in the empty table the verifier starts
    with), so does every entry after a load or a refresh. *)
Theorem key_state_holds_one_key fs st :
  single_key (kevers st) →
  single_key (seed_verifier_database keri fs (kevers st))
  ∧ single_key (kevers (refresh_verifier_state keri fs st).2)
  ∧ ∀ event_data aid k0 rest v key,
      getitem event_data "i" = Ok aid →
      getitem event_data "k" = Ok (JArr (k0 :: rest)) →
      Verfer keri k0 = Ok v →
      hash_key aid = Ok key →
      load_inception_event keri event_data (kevers st) !! key
      = Some [ {| pre := aid; verfers := [v] |} ].
Proof.
  intros Hst. split_and!.
  - by apply seed_verifier_database_single_key.
  - unfold refresh_verifier_state.
    destruct (read_json fs gleif_incept_path) as [[event_data |] |]; simpl;
      [| by apply seed_verifier_database_single_key | done].
    destruct (get event_data "i"); simpl; [| done].
    by apply seed_verifier_database_single_key.
  - intros event_data aid k0 rest v key Hi Hk Hv Hkey.
    rewrite (load_inception_event_first_key _ _ _ _ _ _ _ Hi Hk Hv Hkey).
    apply lookup_insert_eq.
Qed.

End SingleKey.

Lemma single_key_empty : single_key ∅.
Proof. intros key kevs. by rewrite lookup_empty. Qed.

(** Two current keys declared, one stored. *)
Lemma key_state_holds_one_key_witness :
  single_key (kevers (refresh_verifier_state Scenario.keri Scenario.store Scenario.start).2)
  ∧ load_inception_event Scenario.keri
      (JObj [("i", Scenario.Q); ("k", JArr [JStr "DQVI-key"; JStr "DQVI-second-key"])])
      ∅ !! KStr "EQVI-aid"
    = Some [ {| pre := Scenario.Q; verfers := [MkVerfer "DQVI-key"] |} ].
Proof.
  destruct (key_state_holds_one_key Scenario.keri Scenario.store Scenario.start
              single_key_empty) as (_ & Hrefresh & Hload).
  split; [exact Hrefresh |].
  exact (Hload (JObj [("i", Scenario.Q);
                      ("k", JArr [JStr "DQVI-key"; JStr "DQVI-second-key"])])
           Scenario.Q (JStr "DQVI-key") [JStr "DQVI-second-key"]
           (MkVerfer "DQVI-key") (KStr "EQVI-aid")
           eq_refl eq_refl eq_refl eq_refl).
Defined.

(** *** The pipeline, stage by stage *)

Section Pipeline.

Context (keri : KeriLib) (py_str : json → string).

Lemma traverse_issuance_chain_Valid fs credential issuer_aid chain :
  traverse_issuance_chain py_str fs credential issuer_aid = Valid chain ↔
  ∃ le_aid,
    getitem credential "i" = Ok le_aid
    ∧ truthy (registry_gleif_aid fs issuer_aid) = true
    ∧ chain = [ {| level := "Legal Entity"; aid := le_aid |};
                {| level := "QVI"; aid := issuer_aid |};
                {| level := "GLEIF"; aid := registry_gleif_aid fs issuer_aid |} ].
Proof.
  unfold traverse_issuance_chain.
  destruct (getitem credential "i") as [le_aid |]; simpl.
  - destruct (truthy (registry_gleif_aid fs issuer_aid)); simpl; split.
    + intros [= <-]. by exists le_aid.
    + by intros (? & [= <-] & _ & ->).
    + done.
    + by intros (? & _ & ? & _).
  - split; [done | by intros (? & ? & _)].
Qed.

(** The whole pipeline succeeds exactly when each stage does. *)
Lemma verify_acdc_credential_Verified fs st credential issuer_aid expected_did
    credential_said issuer chain :
  verify_acdc_credential keri py_str fs st credential issuer_aid expected_did
  = Verified credential_said issuer chain ↔
  ∃ s credential',
    validate_credential_structure keri credential = (Valid s, credential')
    ∧ did_binding credential' expected_did = Ok true
    ∧ resolve_credential_and_issuer keri fs credential' issuer_aid = Resolved issuer
    ∧ (∃ r, validate_signatures keri st credential' issuer = Valid r)
    ∧ traverse_issuance_chain py_str fs credential' issuer = Valid chain
    ∧ verify_gleif_root py_str st chain = Valid ()
    ∧ get credential' "d" = Ok credential_said.
Proof.
  unfold verify_acdc_credential. split.
  - destruct (validate_credential_structure keri credential) as [[s | r1] c'] eqn:H1;
      simpl; [| done].
    destruct (did_binding c' expected_did) as [[|] |] eqn:H2; simpl; [| done ..].
    destruct (resolve_credential_and_issuer keri fs c' issuer_aid) as [i' | r3] eqn:H3;
      simpl; [| done].
    destruct (validate_signatures keri st c' i') as [r | r4] eqn:H4; simpl; [| done].
    destruct (traverse_issuance_chain py_str fs c' i') as [ch | r5] eqn:H5;
      simpl; [| done].
    destruct (verify_gleif_root py_str st ch) as [[] | r6] eqn:H6; simpl; [| done].
    destruct (get c' "d") as [d |] eqn:H7; simpl; [| done].
    intros [= <- <- <-]. exists s, c'. eauto 10.
  - intros (s & c' & H1 & H2 & H3 & (r & H4) & H5 & H6 & H7).
    rewrite H1; simpl. rewrite H2; simpl. rewrite H3, H4, H5, H6; simpl.
    by rewrite H7.
Qed.

(** C9. Whenever verification succeeds, the returned chain has exactly
    three entries, labelled in order 'Legal Entity', 'QVI', 'GLEIF'; and
    the traversal alone never yields a valid chain labelled otherwise. *)
Theorem verified_chain_levels fs st credential issuer_aid expected_did chain :
  (∃ credential_said issuer,
     verify_acdc_credential keri py_str fs st credential issuer_aid expected_did
     = Verified credential_said issuer chain)
  ∨ traverse_issuance_chain py_str fs credential issuer_aid = Valid chain →
  level <$> chain = ["Legal Entity"; "QVI"; "GLEIF"].
Proof.
  intros [(d & i & H) | Ht].
  - apply verify_acdc_credential_Verified in H
      as (s & c' & _ & _ & _ & _ & Ht & _).
    by apply traverse_issuance_chain_Valid in Ht as (le & _ & _ & ->).
  - by apply traverse_issuance_chain_Valid in Ht as (le & _ & _ & ->).
Qed.

Lemma verify_gleif_root_Valid st chain :
  verify_gleif_root py_str st chain = Valid () ↔
  ∃ gleif_entry kever,
    last chain = Some gleif_entry
    ∧ level gleif_entry = "GLEIF"
    ∧ py_eq (aid gleif_entry) (GLEIF_ROOT_AID st) = true
    ∧ root_key_state st = Some kever
    ∧ verfers kever ≠ [].
Proof.
  unfold verify_gleif_root, root_key_state.
  destruct (last chain) as [e |]; [| split; [done | by intros (? & ? & ? & _)]].
  destruct (String.eqb (level e) "GLEIF") eqn:Hl; simpl.
  2:{ split; [done |]. intros (? & ? & [= <-] & Hl' & _).
      apply String.eqb_neq in Hl. done. }
  apply String.eqb_eq in Hl.
  destruct (py_eq (aid e) (GLEIF_ROOT_AID st)) eqn:He; simpl.
  2:{ split; [done |]. intros (? & ? & [= <-] & _ & He' & _). congruence. }
  destruct (kevers_get (kevers st) (GLEIF_ROOT_AID st)) as [kevs |]; simpl.
  2:{ split; [done | by intros (? & ? & _ & _ & _ & ? & _)]. }
  destruct (kevs ≫= last) as [kever |]; simpl.
  2:{ split; [done | by intros (? & ? & _ & _ & _ & ? & _)]. }
  destruct (verfers kever) as [| v vs] eqn:Hv.
  - split; [done |]. intros (? & ? & _ & _ & _ & [= <-] & Hne). congruence.
  - split; [| done]. intros _. exists e, kever. by rewrite Hv.
Qed.

Lemma check_unit_cases (r : check unit) : r = Valid () ∨ ∃ reason, r = Invalid reason.
Proof. destruct r as [[] | reason]; eauto. Qed.

(** C4. For a chain the traversal produced, with [g] the identifier at
    its top: the root stage rejects exactly when [g] differs from the
    configured trust root, or the trust root has no key-state entry, or
    that entry holds no public key; it passes exactly when [g] equals
    the trust root and the root's key state has at least one key; and in
    the pipeline a rejection of this stage is the result tagged
    'gleif_verification', a pass is the verified result. *)
Theorem verify_gleif_root_traversed fs st credential issuer chain :
  traverse_issuance_chain py_str fs credential issuer = Valid chain →
  ∃ g, top chain = Some g
  ∧ ((∃ reason, verify_gleif_root py_str st chain = Invalid reason) ↔
       py_eq g (GLEIF_ROOT_AID st) = false
       ∨ root_key_state st = None
       ∨ ∃ kever, root_key_state st = Some kever ∧ verfers kever = [])
  ∧ (verify_gleif_root py_str st chain = Valid () ↔
       py_eq g (GLEIF_ROOT_AID st) = true
       ∧ ∃ kever, root_key_state st = Some kever ∧ verfers kever ≠ [])
  ∧ ∀ submitted issuer_aid expected_did s report,
      validate_credential_structure keri submitted = (Valid s, credential) →
      did_binding credential expected_did = Ok true →
      resolve_credential_and_issuer keri fs credential issuer_aid = Resolved issuer →
      validate_signatures keri st credential issuer = Valid report →
      match verify_gleif_root py_str st chain with
      | Invalid reason =>
          verify_acdc_credential keri py_str fs st submitted issuer_aid expected_did
          = Rejected ("GLEIF root verification failed: " +:+ reason) "gleif_verification"
      | Valid _ =>
          ∃ credential_said,
            verify_acdc_credential keri py_str fs st submitted issuer_aid expected_did
            = Verified credential_said issuer chain
      end.
Proof.
  intros Ht.
  pose proof Ht as (le_aid & Hle & Hg & ->)%traverse_issuance_chain_Valid.
  set (g := registry_gleif_aid fs issuer) in *.
  set (chain := [_; _; _]) in *.
  exists g. split; [done |].
  assert (Hvalid : verify_gleif_root py_str st chain = Valid () ↔
            py_eq g (GLEIF_ROOT_AID st) = true
            ∧ ∃ kever, root_key_state st = Some kever ∧ verfers kever ≠ []).
  { rewrite verify_gleif_root_Valid. split.
    - intros (e & kever & [= <-] & _ & He & Hk & Hv). eauto.
    - intros (He & kever & Hk & Hv).
      by exists {| level := "GLEIF"; aid := g |}, kever. }
  split_and!.
  - split.
    + intros [reason Hr].
      destruct (py_eq g (GLEIF_ROOT_AID st)) eqn:He; [| by left].
      right. destruct (root_key_state st) as [kever |] eqn:Hk; [| by left].
      right. exists kever. split; [done |].
      destruct (verfers kever) as [| v vs] eqn:Hv; [done |].
      assert (verify_gleif_root py_str st chain = Valid ()) as Hok.
      { apply Hvalid. split; [done |]. exists kever. by rewrite Hv. }
      congruence.
    + intros Hrej.
      destruct (check_unit_cases (verify_gleif_root py_str st chain))
        as [Hok | Hno]; [| done].
      apply Hvalid in Hok as (He & kever & Hk & Hv).
      destruct Hrej as [? | [? | (kever' & ? & ?)]]; congruence.
  - exact Hvalid.
  - intros submitted issuer_aid expected_did s report H1 H2 H3 H4.
    destruct (verify_gleif_root py_str st chain) as [[] | reason] eqn:H6.
    + destruct credential as [| | | | | m]; try done.
      exists (default JNull (assoc "d" m)).
      apply verify_acdc_credential_Verified.
      exists s, (JObj m). split_and!; eauto.
    + unfold verify_acdc_credential.
      rewrite H1; simpl. rewrite H2; simpl. by rewrite H3, H4, Ht, H6.
Qed.

(** The two-level setup over a verifier state that already holds the
    root's key state; [C2'] is the submitted dict as the structure stage
    leaves it. *)
Lemma chain_verified_after_structure
    fs st (R Q L C1 C2 C2' : json) s s' embedded p n :
  GLEIF_ROOT_AID st = R →
  (∃ kever, root_key_state st = Some kever ∧ verfers kever ≠ []) →
  truthy R = true →
  truthy Q = true →
  Prefixer keri Q = Ok () →
  fs !! qvi_credential_path = Some (Content C1) →
  get C1 "i" = Ok Q →
  embedded_issuer C1 = Ok R →
  validate_credential_structure keri C2 = (Valid s, C2') →
  SerderACDC keri C2' = Ok s' →
  getitem C2' "i" = Ok L →
  embedded_issuer C2' = Ok embedded →
  embedded = Q ∨ truthy embedded = false →
  getitem C2' "p" = Ok p →
  truthy p = true →
  len p = Ok n →
  ∃ credential_said,
    get C2' "d" = Ok credential_said
    ∧ verify_acdc_credential keri py_str fs st C2 JNull JNull
      = Verified credential_said Q
          [ {| level := "Legal Entity"; aid := L |};
            {| level := "QVI"; aid := Q |};
            {| level := "GLEIF"; aid := R |} ].
Proof.
  intros HR Hkeys HtR HtQ HpQ Hfs HC1i HC1a Hv Hs HL Hemb HembQ Hp Htp Hlen.
  destruct C2' as [| | | | | m]; try done.
  exists (default JNull (assoc "d" m)). split; [done |].
  assert (Hreg : registry_gleif_aid fs Q = R).
  { unfold registry_gleif_aid, read_json. rewrite Hfs; simpl.
    rewrite HC1i; simpl. by rewrite py_eq_refl, HC1a. }
  apply verify_acdc_credential_Verified. exists s, (JObj m). split_and!.
  - done.
  - done.
  - unfold resolve_credential_and_issuer. rewrite Hs; simpl.
    rewrite Hemb; simpl.
    assert ((if truthy embedded then embedded
             else qvi_credential_subject fs embedded) = Q) as ->.
    { destruct HembQ as [-> | Hf]; [by rewrite HtQ |].
      rewrite Hf. unfold qvi_credential_subject, read_json.
      rewrite Hfs; simpl. by rewrite HC1i. }
    by rewrite HtQ, HpQ.
  - exists {| signatures := p; verified_count := n |}.
    unfold validate_signatures. simpl in Hp |- *.
    destruct (assoc "p" m) as [p' |] eqn:Hpm; [| done].
    injection Hp as ->. simpl. rewrite Hs; simpl. rewrite Htp; simpl.
    by rewrite Hlen.
  - apply traverse_issuance_chain_Valid. exists L. rewrite Hreg. by split_and!.
  - apply verify_gleif_root_Valid. destruct Hkeys as (kever & Hk & Hv').
    exists {| level := "GLEIF"; aid := R |}, kever. simpl.
    rewrite HR, py_eq_refl. by split_and!.
  - done.
Qed.

(** A rebuild that rewrites at most [v] and [d] leaves the subject, the
    proof and the embedded issuer as they were submitted. *)
Lemma embedded_issuer_kept (C C' : json) L L' :
  getitem C "i" = Ok L →
  getitem C' "i" = Ok L' →
  getitem C' "a" = getitem C "a" →
  embedded_issuer C' = embedded_issuer C.
Proof.
  intros Hi Hi' Ha. destruct C as [| | | | | m]; try done.
  destruct C' as [| | | | | m']; try done.
  unfold embedded_issuer. simpl in *.
  destruct (assoc "a" m), (assoc "a" m'); simpl; congruence.
Qed.

Lemma written_single key es kevs :
  Forall (λ e, ∀ key' v, e = Some (key', v) →
                 ∃ aid ve, v = [ {| pre := aid; verfers := [ve] |} ]) es →
  written key es = Some kevs →
  ∃ aid ve, kevs = [ {| pre := aid; verfers := [ve] |} ].
Proof.
  induction 1 as [| e es He _ IH]; simpl; [done |].
  destruct (written key es); [by intros [= <-]; apply IH |].
  destruct e as [[key' v] |]; [| done].
  destruct (decide (key' = key)); [| done].
  intros [= <-]. by apply (He key' v).
Qed.

Lemma seed_entries_single fs :
  Forall (λ e, ∀ key' v, e = Some (key', v) →
                 ∃ aid ve, v = [ {| pre := aid; verfers := [ve] |} ])
         (seed_entries keri fs).
Proof.
  assert (∀ ev : option json, ∀ key' v,
            ev ≫= inception_entry keri = Some (key', v) →
            ∃ aid ve, v = [ {| pre := aid; verfers := [ve] |} ]) as Hentry.
  { intros [ev |] key' v; simpl; [apply inception_entry_single | done]. }
  unfold seed_entries.
  destruct (read_json fs gleif_incept_path); [| constructor].
  constructor; [apply Hentry |].
  destruct (read_json fs qvi_incept_path); [| constructor].
  constructor; [apply Hentry |].
  destruct (le_icp_path fs) as [p |]; [| constructor].
  destruct (read_json fs p); repeat constructor. apply Hentry.
Qed.

(** A refresh over a directory whose root inception record names the
    configured root publishes a key for the root and keeps the root. *)
Lemma refresh_publishes_root fs st R icp k0 rest v :
  GLEIF_ROOT_AID st = JStr R →
  fs !! gleif_incept_path = Some (Content icp) →
  getitem icp "i" = Ok (JStr R) →
  getitem icp "k" = Ok (JArr (k0 :: rest)) →
  Verfer keri k0 = Ok v →
  GLEIF_ROOT_AID (refresh_verifier_state keri fs st).2 = JStr R
  ∧ ∃ kever, root_key_state (refresh_verifier_state keri fs st).2 = Some kever
             ∧ verfers kever ≠ [].
Proof.
  intros HR Hfs Hi Hk Hv.
  assert (get icp "i" = Ok (JStr R)) as Hget.
  { destruct icp as [| | | | | m]; try done. simpl in *.
    by destruct (assoc "i" m) as [x |]; [injection Hi as -> |]. }
  assert (inception_entry keri icp
          = Some (KStr R, [ {| pre := JStr R; verfers := [v] |} ])) as Hentry.
  { unfold inception_entry. rewrite Hi; simpl. rewrite Hk; simpl. by rewrite Hv. }
  assert (refresh_verifier_state keri fs st
          = (true, {| GLEIF_ROOT_AID := JStr R;
                      kevers := seed_verifier_database keri fs (kevers st) |})) as ->.
  { unfold refresh_verifier_state, read_json. rewrite Hfs, Hget, HR.
    by rewrite py_eq_refl, andb_false_r. }
  simpl. split; [done |].
  unfold root_key_state, kevers_get; simpl.
  rewrite seed_verifier_database_put_all, lookup_put_all.
  assert (is_Some (written (KStr R) (seed_entries keri fs))) as [kevs Hw].
  { unfold seed_entries, read_json at 1. rewrite Hfs. simpl. rewrite Hentry.
    destruct (written (KStr R) _); [by eexists |].
    rewrite decide_True by done. by eexists. }
  rewrite Hw; simpl.
  destruct (written_single _ _ _ (seed_entries_single fs) Hw) as (aid' & ve & ->).
  by eexists.
Qed.

(** C8, as the code has it. The two-level setup: trust root configured
    as [R], whose inception record is in the store; the parent
    credential in the store, issued to [Q] and naming [R] as its issuer;
    the submitted credential about [L], carrying a proof, whose issuer
    is [Q] (embedded, or found through the parent credential).  When the
    library lets the credential through the structure stage, as it
    stands or rebuilt with [makify=True] with at most [v] and [d]
    rewritten, and parses the dict that stage leaves, then after the
    refresh that precedes every request verification succeeds and the
    chain is [L], [Q], [R] in that order; the identifier reported is the
    [d] of the dict the structure stage leaves. *)
Theorem two_level_chain_verified
    fs st (R : string) (Q L C1 C2 C2' icp k0 : json) rest v s s' embedded p n :
  GLEIF_ROOT_AID st = JStr R →
  R ≠ "" →
  fs !! gleif_incept_path = Some (Content icp) →
  getitem icp "i" = Ok (JStr R) →
  getitem icp "k" = Ok (JArr (k0 :: rest)) →
  Verfer keri k0 = Ok v →
  truthy Q = true →
  Prefixer keri Q = Ok () →
  fs !! qvi_credential_path = Some (Content C1) →
  get C1 "i" = Ok Q →
  embedded_issuer C1 = Ok (JStr R) →
  getitem C2 "i" = Ok L →
  embedded_issuer C2 = Ok embedded →
  embedded = Q ∨ truthy embedded = false →
  getitem C2 "p" = Ok p →
  truthy p = true →
  len p = Ok n →
  validate_credential_structure keri C2 = (Valid s, C2') →
  (∀ k, k ≠ "v" → k ≠ "d" → getitem C2' k = getitem C2 k) →
  SerderACDC keri C2' = Ok s' →
  ∃ credential_said,
    get C2' "d" = Ok credential_said
    ∧ verify_acdc_credential keri py_str fs (refresh_verifier_state keri fs st).2
        C2 JNull JNull
      = Verified credential_said Q
          [ {| level := "Legal Entity"; aid := L |};
            {| level := "QVI"; aid := Q |};
            {| level := "GLEIF"; aid := JStr R |} ].
Proof.
  intros HR HRne Hfs Hi Hk Hv HtQ HpQ HC1 HC1i HC1a HL Hemb HembQ Hp Htp Hlen
    Hvalid Hkept Hs.
  destruct (refresh_publishes_root fs st R icp k0 rest v HR Hfs Hi Hk Hv)
    as (Hroot & Hkeys).
  assert (getitem C2' "i" = Ok L) as HL' by (by rewrite Hkept).
  assert (getitem C2' "p" = Ok p) as Hp' by (by rewrite Hkept).
  assert (embedded_issuer C2' = Ok embedded) as Hemb'.
  { rewrite <- Hemb. eapply embedded_issuer_kept; [done | done |].
    by apply Hkept. }
  eapply chain_verified_after_structure; eauto.
  simpl. by apply negb_true_iff, String.eqb_neq.
Qed.

End Pipeline.

(** The scenario run: the chain of [Scenario.C2] is labelled as stated. *)
Lemma verified_chain_levels_witness :
  level <$> Scenario.chain_LQR = ["Legal Entity"; "QVI"; "GLEIF"].
Proof.
  apply (verified_chain_levels Scenario.keri Scenario.py_str
           Scenario.store Scenario.ready Scenario.C2 JNull JNull).
  left. eexists _, _. vm_compute. reflexivity.
Defined.

(** In the scenario the traversed chain ends at the configured root,
    which has a key: the root stage passes. *)
Lemma verify_gleif_root_traversed_witness :
  traverse_issuance_chain Scenario.py_str Scenario.store Scenario.C2 Scenario.Q
  = Valid Scenario.chain_LQR
  ∧ verify_gleif_root Scenario.py_str Scenario.ready Scenario.chain_LQR = Valid ().
Proof.
  assert (traverse_issuance_chain Scenario.py_str Scenario.store Scenario.C2 Scenario.Q
          = Valid Scenario.chain_LQR) as Ht by (vm_compute; reflexivity).
  split; [exact Ht |].
  destruct (verify_gleif_root_traversed Scenario.keri Scenario.py_str
              Scenario.store Scenario.ready Scenario.C2 Scenario.Q
              Scenario.chain_LQR Ht) as (g & Hg & _ & Hpass & _).
  apply Hpass. injection Hg as <-. split; [vm_compute; reflexivity |].
  eexists. split; [vm_compute; reflexivity | discriminate].
Defined.

(** The scenario's credential, signed the way the issuer script signs
    ([p] attached after [d] was computed), under the library that
    rebuilds in place: it is verified through the rebuild, and the
    identifier reported is the rebuilt one. *)
Lemma two_level_chain_verified_witness :
  ∃ credential_said,
    verify_acdc_credential Keripy.v11 Scenario.py_str Scenario.store
      (refresh_verifier_state Keripy.v11 Scenario.store Scenario.start).2
      Scenario.C2 JNull JNull
    = Verified credential_said Scenario.Q Scenario.chain_LQR.
Proof.
  assert (∃ s C2',
            validate_credential_structure Keripy.v11 Scenario.C2 = (Valid s, C2')
            ∧ (∀ k, k ≠ "v" → k ≠ "d" → getitem C2' k = getitem Scenario.C2 k)
            ∧ SerderACDC Keripy.v11 C2' = Ok s) as (s & C2' & Hvalid & Hkept & Hs).
  { eexists _, _. split_and!.
    - vm_compute. reflexivity.
    - intros k Hv Hd. simpl.
      apply String.eqb_neq in Hv as ->. by apply String.eqb_neq in Hd as ->.
    - vm_compute. reflexivity. }
  destruct (two_level_chain_verified Keripy.v11 Scenario.py_str
              Scenario.store Scenario.start "EGLEIF-root-aid"
              Scenario.Q Scenario.L Scenario.C1 Scenario.C2 C2'
              (Scenario.incept Scenario.R Scenario.key_R)
              (JStr Scenario.key_R) [] (MkVerfer Scenario.key_R) s s JNull
              (JObj [("d", JStr (Scenario.sign Scenario.key_Q))]) 1)
    as (d & _ & Hverified).
  - reflexivity.
  - discriminate.
  - vm_compute; reflexivity.
  - reflexivity.
  - reflexivity.
  - reflexivity.
  - reflexivity.
  - reflexivity.
  - vm_compute; reflexivity.
  - reflexivity.
  - reflexivity.
  - reflexivity.
  - reflexivity.
  - right; reflexivity.
  - reflexivity.
  - reflexivity.
  - reflexivity.
  - exact Hvalid.
  - exact Hkept.
  - exact Hs.
  - by exists d.
Defined.

(** C8, as stated, fails. The setup is in place: the trust root is [R]
    and has a key, the parent credential of [Q] issued by [R] is in the
    store, and the submitted credential is about [L] and carries the
    signature made with [Q]'s key. Under the library that refuses a body
    carrying [p], verification is rejected at the structure stage. *)
Lemma signed_credential_refused_by_library :
  let st := (refresh_verifier_state Keripy.v12 Scenario.store Scenario.start).2 in
  GLEIF_ROOT_AID st = Scenario.R
  ∧ root_key_state st
    = Some {| pre := Scenario.R; verfers := [MkVerfer Scenario.key_R] |}
  ∧ Scenario.store !! qvi_credential_path = Some (Content Scenario.C1)
  ∧ get Scenario.C1 "i" = Ok Scenario.Q
  ∧ embedded_issuer Scenario.C1 = Ok Scenario.R
  ∧ getitem Scenario.C2 "i" = Ok Scenario.L
  ∧ getitem Scenario.C2 "p"
    = Ok (JObj [("d", JStr (Scenario.sign Scenario.key_Q))])
  ∧ verify_acdc_credential Keripy.v12 Scenario.py_str Scenario.store st
      Scenario.C2 JNull JNull
    = Rejected "Invalid credential structure: Invalid credential format"
        "structure_validation".
Proof. split_and!; vm_compute; reflexivity. Qed.

(** *** Signatures *)

Lemma validate_signatures_ignores_key_state keri st st' credential issuer_aid :
  validate_signatures keri st credential issuer_aid
  = validate_signatures keri st' credential issuer_aid.
Proof. reflexivity. Qed.

Lemma validate_signatures_nonempty keri st credential issuer_aid s p n :
  SerderACDC keri credential = Ok s →
  getitem credential "p" = Ok p →
  truthy p = true →
  len p = Ok n →
  validate_signatures keri st credential issuer_aid
  = Valid {| signatures := p; verified_count := n |}.
Proof.
  intros Hs Hp Ht Hn. destruct credential as [| | | | | m]; try done.
  unfold validate_signatures. simpl in *.
  destruct (assoc "p" m) as [p' |]; [| done]. injection Hp as ->. simpl.
  rewrite Hs; simpl. rewrite Ht; simpl. by rewrite Hn.
Qed.

(** C1. The code at the failing input: the scenario credential carrying
    a well-formed signature made by a key that is not in the key state
    of its issuer [Q] (whose only key is [key_Q]) passes the signature
    stage and is verified; the stage gives the same answer for every
    key-state table. *)
Theorem unrelated_signature_is_verified :
  let credential := Scenario.C2_signed_by Scenario.unrelated_key in
  issuer_verfers Scenario.ready Scenario.Q = Some [MkVerfer Scenario.key_Q]
  ∧ getitem credential "p"
    = Ok (JObj [("d", JStr (Scenario.sign Scenario.unrelated_key))])
  ∧ (∀ st, validate_signatures Scenario.keri st credential Scenario.Q
           = Valid {| signatures := JObj [("d", JStr (Scenario.sign Scenario.unrelated_key))];
                      verified_count := 1 |})
  ∧ ∃ credential_said,
      verify_acdc_credential Scenario.keri Scenario.py_str
        Scenario.store Scenario.ready credential JNull JNull
      = Verified credential_said Scenario.Q Scenario.chain_LQR.
Proof.
  split_and!.
  - vm_compute; reflexivity.
  - vm_compute; reflexivity.
  - intros st. rewrite (validate_signatures_ignores_key_state _ st Scenario.ready).
    vm_compute; reflexivity.
  - eexists. vm_compute; reflexivity.
Qed.

(** *** Soft failure of the load *)

Lemma seed_verifier_database_unreadable_gleif keri fs kv msg :
  fs !! gleif_incept_path = Some (Unreadable msg) →
  seed_verifier_database keri fs kv = kv.
Proof. intros H. unfold seed_verifier_database, read_json. by rewrite H. Qed.

(** A record that parses but lacks its fields is skipped and the
    records after it are loaded. *)
Lemma seed_verifier_database_incomplete_gleif :
  dom (seed_verifier_database Scenario.keri Scenario.store_gleif_incomplete ∅)
  = {[ KStr "EQVI-aid"; KStr "ELegalEntity-aid" ]}.
Proof. vm_compute; reflexivity. Qed.

(** C5. The code at the failing input: with a root inception record
    that is not valid JSON and well-formed records for the intermediate
    and the leaf in the same directory, the load ends at the first file
    and loads nothing, and a refresh gives up before loading. *)
Theorem unreadable_record_aborts_load :
  let fs := Scenario.store_gleif_unreadable in
  read_json fs qvi_incept_path
  = Ok (Some (Scenario.incept Scenario.Q Scenario.key_Q))
  ∧ inception_entry Scenario.keri (Scenario.incept Scenario.Q Scenario.key_Q)
    = Some (KStr "EQVI-aid",
            [ {| pre := Scenario.Q; verfers := [MkVerfer Scenario.key_Q] |} ])
  ∧ seed_verifier_database Scenario.keri fs ∅ = ∅
  ∧ refresh_verifier_state Scenario.keri fs Scenario.start = (false, Scenario.start).
Proof.
  split_and!.
  - vm_compute; reflexivity.
  - vm_compute; reflexivity.
  - by apply seed_verifier_database_unreadable_gleif with
      (msg := "Expecting value: line 1 column 1 (char 0)").
  - vm_compute; reflexivity.
Qed.

(** *** Issuer resolution *)

Section Resolution.

Context (keri : KeriLib) (py_str : json → string).

Lemma resolve_credential_and_issuer_Resolved fs credential issuer_aid x :
  resolve_credential_and_issuer keri fs credential issuer_aid = Resolved x ↔
  (∃ s, SerderACDC keri credential = Ok s)
  ∧ source_yields fs credential issuer_aid x
  ∧ Prefixer keri x = Ok ().
Proof.
  unfold resolve_credential_and_issuer.
  destruct (SerderACDC keri credential) as [s | m] eqn:Hs; simpl;
    [| split; [done | by intros ((? & ?) & _)]].
  destruct (truthy issuer_aid) eqn:Hi; simpl.
  { rewrite Hi; simpl.
    destruct (Prefixer keri issuer_aid) as [[] |] eqn:Hp; rewrite ?Hi; simpl; split.
    - intros [= <-]. eauto using source_yields.
    - intros (_ & Hy & _). inversion Hy; congruence.
    - done.
    - intros (_ & Hy & Hx). inversion Hy; congruence. }
  destruct (embedded_issuer credential) as [b | m] eqn:Hb; simpl;
    [| split; [done | intros (_ & Hy & _); inversion Hy; congruence]].
  destruct (truthy b) eqn:Htb; simpl.
  { rewrite Htb; simpl.
    destruct (Prefixer keri b) as [[] |] eqn:Hp; rewrite ?Htb; simpl; split.
    - intros [= <-]. eauto using source_yields.
    - intros (_ & Hy & _). inversion Hy; congruence.
    - done.
    - intros (_ & Hy & Hx). inversion Hy; congruence. }
  unfold qvi_credential_subject, read_json.
  destruct (fs !! qvi_credential_path) as [[qvi_cred | m] |] eqn:Hf; simpl.
  - destruct (get qvi_cred "i") as [y | m] eqn:Hy; simpl.
    + destruct (truthy y) eqn:Hty; simpl.
      * destruct (Prefixer keri y) as [[] |] eqn:Hp; rewrite ?Hty; simpl; split.
        -- intros [= <-]. eauto using source_yields.
        -- intros (_ & Hsrc & _). inversion Hsrc; congruence.
        -- done.
        -- intros (_ & Hsrc & Hx). inversion Hsrc; congruence.
      * split; [done |]. intros (_ & Hsrc & _). inversion Hsrc; congruence.
    + rewrite Htb; simpl. split; [done |].
      intros (_ & Hsrc & _). inversion Hsrc; congruence.
  - rewrite Htb; simpl. split; [done |].
    intros (_ & Hsrc & _). inversion Hsrc; congruence.
  - rewrite Htb; simpl. split; [done |].
    intros (_ & Hsrc & _). inversion Hsrc; congruence.
Qed.

(** C3, as the code has it. The stage resolves to [x] exactly when the
    library parses the credential, [x] is what the sources yield in the
    order override, embedded issuer, subject of the stored parent
    credential, and [x] is a well-formed identifier; it rejects in every
    other case, and in the pipeline that rejection is the result tagged
    'resolution'. *)
Theorem issuer_resolution_by_priority fs credential issuer_aid :
  (∀ x, resolve_credential_and_issuer keri fs credential issuer_aid = Resolved x ↔
        (∃ s, SerderACDC keri credential = Ok s)
        ∧ source_yields fs credential issuer_aid x
        ∧ Prefixer keri x = Ok ())
  ∧ ((∃ reason,
        resolve_credential_and_issuer keri fs credential issuer_aid = Unresolved reason) ↔
     ¬ ∃ x, (∃ s, SerderACDC keri credential = Ok s)
            ∧ source_yields fs credential issuer_aid x
            ∧ Prefixer keri x = Ok ())
  ∧ (∀ st submitted expected_did s reason,
       validate_credential_structure keri submitted = (Valid s, credential) →
       did_binding credential expected_did = Ok true →
       resolve_credential_and_issuer keri fs credential issuer_aid = Unresolved reason →
       verify_acdc_credential keri py_str fs st submitted issuer_aid expected_did
       = Rejected ("Failed to resolve credential/issuer: " +:+ reason) "resolution").
Proof.
  split_and!.
  - intros x. apply resolve_credential_and_issuer_Resolved.
  - split.
    + intros [reason Hr] (x & Hx).
      apply resolve_credential_and_issuer_Resolved in Hx. congruence.
    + intros Hno.
      destruct (resolve_credential_and_issuer keri fs credential issuer_aid)
        as [x | reason] eqn:Hr; [| by eexists].
      apply resolve_credential_and_issuer_Resolved in Hr. destruct Hno; eauto.
  - intros st submitted expected_did s reason H1 H2 H3.
    unfold verify_acdc_credential. rewrite H1; simpl. rewrite H2; simpl.
    by rewrite H3.
Qed.

End Resolution.

(** In the scenario the fallback yields [Q] for [C2]. *)
Lemma issuer_resolution_by_priority_witness :
  resolve_credential_and_issuer Scenario.keri Scenario.store Scenario.C2 JNull
  = Resolved Scenario.Q.
Proof.
  apply (issuer_resolution_by_priority Scenario.keri Scenario.py_str).
  split_and!.
  - eexists. vm_compute; reflexivity.
  - eapply from_parent_credential; reflexivity.
  - reflexivity.
Defined.

(** C3, as stated, fails. In both runs the three sources of the claim,
    tried in its order, give the well-formed identifier [Q], and the
    stage rejects: the tampered credential because the library refuses
    to parse it, the compact credential because reading the issuer from
    its attributes raises before the parent credential is consulted. *)
Lemma resolution_rejects_despite_sources :
  let sources credential issuer_aid :=
    [ issuer_aid;
      try_except (embedded_issuer credential) (λ _, JNull);
      qvi_credential_subject Scenario.store JNull ] in
  Prefixer Scenario.keri Scenario.Q = Ok ()
  ∧ (List.find truthy (sources Scenario.C2_tampered Scenario.Q) = Some Scenario.Q
     ∧ resolve_credential_and_issuer Scenario.keri Scenario.store
         Scenario.C2_tampered Scenario.Q
       = Unresolved "Resolution error: Invalid sad for Serder")
  ∧ (List.find truthy (sources Scenario.C2_compact JNull) = Some Scenario.Q
     ∧ (∃ s, SerderACDC Scenario.keri Scenario.C2_compact = Ok s)
     ∧ resolve_credential_and_issuer Scenario.keri Scenario.store
         Scenario.C2_compact JNull
       = Unresolved "Resolution error: 'str' object has no attribute 'get'").
Proof.
  split_and!; try (vm_compute; reflexivity).
  eexists. vm_compute; reflexivity.
Qed.

(** *** Structure validation *)

Section Structure.

Context (keri : KeriLib) (py_str : json → string).

Lemma verify_acdc_credential_structure_step fs st credential issuer_aid expected_did :
  (∃ reason,
     verify_acdc_credential keri py_str fs st credential issuer_aid expected_did
     = Rejected reason "structure_validation") ↔
  ∃ reason credential',
    validate_credential_structure keri credential = (Invalid reason, credential').
Proof.
  unfold verify_acdc_credential.
  destruct (validate_credential_structure keri credential) as [[s | r1] c'];
    simpl; [| split; eauto].
  split; [| by intros (? & ? & ?)].
  intros [reason H]. exfalso. revert H.
  destruct (did_binding c' expected_did) as [[|] |]; simpl; [| done ..].
  destruct (resolve_credential_and_issuer keri fs c' issuer_aid); simpl; [| done].
  destruct (validate_signatures keri st c' _); simpl; [| done].
  destruct (traverse_issuance_chain py_str fs c' _); simpl; [| done].
  destruct (verify_gleif_root py_str st _); simpl; [| done].
  by destruct (get c' "d").
Qed.

(** C2, as the code has it. For a credential the library refuses to
    parse as it stands (as it does when the recomputed SAID differs from
    [d]), verification is rejected with the tag 'structure_validation'
    exactly when the library also refuses to rebuild it with
    [makify=True], or the rebuilt body lacks a required field or an ACDC
    version string. *)
Theorem unparsed_credential_structure_step
    fs st credential issuer_aid expected_did msg :
  SerderACDC keri credential = Raise msg →
  (∃ reason,
     verify_acdc_credential keri py_str fs st credential issuer_aid expected_did
     = Rejected reason "structure_validation") ↔
  (∃ msg', SerderACDC_makify keri credential = Raise msg')
  ∨ (∃ s credential' reason,
       SerderACDC_makify keri credential = Ok (s, credential')
       ∧ check_fields s = Invalid reason).
Proof.
  intros Hs. rewrite verify_acdc_credential_structure_step.
  unfold validate_credential_structure. rewrite Hs.
  destruct (SerderACDC_makify keri credential) as [[s c'] | msg'] eqn:Hm.
  - split.
    + intros (reason & c'' & [= Hc <-]). right. eauto.
    + intros [[? [=]] | (s' & c'' & reason & [= <- <-] & Hc)]. rewrite Hc. eauto.
  - split; [eauto |]. intros _. eauto.
Qed.

End Structure.

(** A body with no version string: neither parse succeeds, and the
    rejection is tagged 'structure_validation'. *)
Lemma unparsed_credential_structure_step_witness :
  ∃ reason,
    verify_acdc_credential Scenario.keri Scenario.py_str
      Scenario.store Scenario.ready (JObj [("d", JStr "E0")]) JNull JNull
    = Rejected reason "structure_validation".
Proof.
  apply (unparsed_credential_structure_step Scenario.keri Scenario.py_str
           Scenario.store Scenario.ready (JObj [("d", JStr "E0")]) JNull JNull
           "Missing version string or said field" eq_refl).
  left. eexists. reflexivity.
Defined.

(** C2, as stated, fails: the stored [d] of the tampered credential
    differs from the identifier recomputed over its body, and the result
    is not tagged 'structure_validation'; the rebuild with [makify=True]
    lets the structure stage pass and the credential is rejected one
    stage later. *)
Lemma tampered_credential_passes_structure :
  (∃ m d, Scenario.C2_tampered = JObj m
          ∧ assoc "d" m = Some d
          ∧ py_eq d (Scenario.said m) = false)
  ∧ verify_acdc_credential Scenario.keri Scenario.py_str
      Scenario.store Scenario.ready Scenario.C2_tampered JNull JNull
    = Rejected "Failed to resolve credential/issuer: Resolution error: Invalid sad for Serder"
        "resolution"
  ∧ ¬ ∃ reason,
        verify_acdc_credential Scenario.keri Scenario.py_str
          Scenario.store Scenario.ready Scenario.C2_tampered JNull JNull
        = Rejected reason "structure_validation".
Proof.
  assert (verify_acdc_credential Scenario.keri Scenario.py_str
            Scenario.store Scenario.ready Scenario.C2_tampered JNull JNull
          = Rejected "Failed to resolve credential/issuer: Resolution error: Invalid sad for Serder"
              "resolution") as Hv by (vm_compute; reflexivity).
  split_and!.
  - eexists _, _. split_and!; [reflexivity | reflexivity | vm_compute; reflexivity].
  - exact Hv.
  - intros [reason Hr]. rewrite Hv in Hr. discriminate Hr.
Qed.

(** *** The HTTP endpoint *)

Section Endpoint.

Context (keri : KeriLib) (py_str : json → string).

(** C6, as the code has it. Every HTTP 500 response of [POST /verify]
    has a body of exactly two fields, [success] false and [error] equal
    to 'Internal server error: ' followed by the text of the exception
    that was caught: the one raised while the request body was parsed or
    while the fields of the request were read. The state is left as it
    was. *)
Theorem internal_server_error_body fs st request :
  status (verify_credential keri py_str fs st request).1 = 500%Z →
  ∃ msg,
    verify_credential keri py_str fs st request = (internal_server_error msg, st)
    ∧ (request = Raise msg
       ∨ ∃ data,
           request = Ok data ∧ truthy data = true
           ∧ (contains "credential" data = Raise msg
              ∨ getitem data "credential" = Raise msg
              ∨ get data "issuer_aid" = Raise msg
              ∨ get data "expected_did" = Raise msg
              ∨ ∃ credential,
                  getitem data "credential" = Ok credential
                  ∧ get_default credential "d" (JStr "unknown") = Raise msg)).
Proof.
  unfold verify_credential.
  destruct request as [data | msg]; simpl; [| eauto].
  destruct (truthy data) eqn:Hd; simpl; [| done].
  destruct (contains "credential" data) as [[|] | msg] eqn:Hc; simpl;
    [| done | intros _; exists msg; eauto 10].
  destruct (getitem data "credential") as [credential | msg] eqn:Hg; simpl;
    [| intros _; exists msg; eauto 10].
  destruct (get data "issuer_aid") as [issuer_aid | msg] eqn:Hi; simpl;
    [| intros _; exists msg; eauto 10].
  destruct (get data "expected_did") as [expected_did | msg] eqn:He; simpl;
    [| intros _; exists msg; eauto 10].
  destruct (get_default credential "d" (JStr "unknown")) as [d | msg] eqn:Hdd; simpl;
    [| intros _; exists msg; split; [done |]; right; exists data; eauto 10].
  by destruct (verify_acdc_credential keri py_str fs _ credential issuer_aid expected_did).
Qed.

End Endpoint.

(** A request whose credential is a list. *)
Lemma internal_server_error_body_witness :
  ∃ msg,
    verify_credential Scenario.keri Scenario.py_str Scenario.store Scenario.start
      (Ok (JObj [("credential", JArr [])]))
    = (internal_server_error msg, Scenario.start).
Proof.
  destruct (internal_server_error_body Scenario.keri Scenario.py_str
              Scenario.store Scenario.start
              (Ok (JObj [("credential", JArr [])])) eq_refl)
    as (msg & H & _).
  exists msg. exact H.
Defined.

(** C6, as stated, fails: the body of the 500 response carries the text
    of the exception, so no one generic message is returned for every
    internal error. *)
Lemma internal_error_exposes_exception_text :
  body (verify_credential Scenario.keri Scenario.py_str Scenario.store Scenario.start
          (Ok (JObj [("credential", JArr [])]))).1
  = JObj [("success", JBool false);
          ("error", JStr "Internal server error: 'list' object has no attribute 'get'")]
  ∧ (∀ msg,
       (verify_credential Scenario.keri Scenario.py_str Scenario.store Scenario.start
          (Raise msg)).1
       = internal_server_error msg)
  ∧ ¬ ∃ generic,
        ∀ request,
          status (verify_credential Scenario.keri Scenario.py_str
                    Scenario.store Scenario.start request).1 = 500%Z →
          get (body (verify_credential Scenario.keri Scenario.py_str
                       Scenario.store Scenario.start request).1) "error"
          = Ok (JStr generic).
Proof.
  split_and!.
  - reflexivity.
  - reflexivity.
  - intros [generic H].
    pose proof (H (Ok (JObj [("credential", JArr [])])) eq_refl) as H1.
    pose proof (H (Ok (JObj [("credential", JStr "x")])) eq_refl) as H2.
    vm_compute in H1, H2. congruence.
Qed.

(** ** Further properties of the key-state store *)

Section KeyStateStore.

Context (keri : KeriLib).

(** X1. A record that cannot be loaded leaves the table as it was: no
    [i], no [k], an empty [k], a first key the library rejects, or an
    identifier that cannot be a dict key. *)
Theorem load_inception_event_malformed event_data kv :
  (∃ msg, getitem event_data "i" = Raise msg)
  ∨ (∃ msg, getitem event_data "k" = Raise msg)
  ∨ (∃ k msg, getitem event_data "k" = Ok k ∧ getitem0 k = Raise msg)
  ∨ (∃ k q msg, getitem event_data "k" = Ok k ∧ getitem0 k = Ok q
                ∧ Verfer keri q = Raise msg)
  ∨ (∃ aid msg, getitem event_data "i" = Ok aid ∧ hash_key aid = Raise msg) →
  load_inception_event keri event_data kv = kv.
Proof.
  unfold load_inception_event.
  intros [(m & ->) | [(m & Hk) | [(k & m & Hk & H0) | [(k & q & m & Hk & H0 & Hv)
         | (aid & m & Hi & Hh)]]]]; [done | ..].
  - destruct (getitem event_data "i"); simpl; [| done]. by rewrite Hk.
  - destruct (getitem event_data "i"); simpl; [| done].
    rewrite Hk; simpl. by rewrite H0.
  - destruct (getitem event_data "i"); simpl; [| done].
    rewrite Hk; simpl. rewrite H0; simpl. by rewrite Hv.
  - rewrite Hi; simpl.
    destruct (getitem event_data "k") as [k |]; simpl; [| done].
    destruct (getitem0 k) as [q |]; simpl; [| done].
    destruct (Verfer keri q); simpl; [| done]. by rewrite Hh.
Qed.

(** X2. A load touches at most the entry of the record's own
    identifier: every other entry of the table is as before. *)
Theorem load_inception_event_frame event_data kv aid key key' :
  getitem event_data "i" = Ok aid →
  hash_key aid = Ok key →
  key' ≠ key →
  load_inception_event keri event_data kv !! key' = kv !! key'.
Proof.
  intros Hi Hh Hne. unfold load_inception_event. rewrite Hi; simpl.
  destruct (getitem event_data "k") as [k |]; simpl; [| done].
  destruct (getitem0 k) as [q |]; simpl; [| done].
  destruct (Verfer keri q); simpl; [| done].
  rewrite Hh; simpl. by rewrite lookup_insert_ne.
Qed.

(** X3. Neither a load of the directory nor a refresh removes an
    identifier from the table: entries of identifiers that are no longer
    in the directory stay. *)
Theorem seed_and_refresh_keep_identifiers fs st key :
  is_Some (kevers st !! key) →
  is_Some (seed_verifier_database keri fs (kevers st) !! key)
  ∧ is_Some (kevers (refresh_verifier_state keri fs st).2 !! key).
Proof.
  intros Hk.
  assert (is_Some (seed_verifier_database keri fs (kevers st) !! key)) as Hseed.
  { rewrite seed_verifier_database_put_all, lookup_put_all.
    destruct (written key (seed_entries keri fs)); [by eexists | done]. }
  split; [done |]. unfold refresh_verifier_state.
  destruct (read_json fs gleif_incept_path) as [[event_data |] |]; simpl;
    [| done ..].
  by destruct (get event_data "i").
Qed.

(** X4. Without a [habitats.json] that can be read, the load looks at
    the two fixed inception files only: two directories that agree on
    these three names give the same table. *)
Theorem seed_without_habitats fs fs' kv :
  fs !! habitats_path = None ∨ (∃ msg, fs !! habitats_path = Some (Unreadable msg)) →
  fs' !! habitats_path = fs !! habitats_path →
  fs' !! gleif_incept_path = fs !! gleif_incept_path →
  fs' !! qvi_incept_path = fs !! qvi_incept_path →
  seed_verifier_database keri fs' kv = seed_verifier_database keri fs kv.
Proof.
  intros Hh Hh' Hg Hq.
  assert (le_icp_path fs = None) as Hle.
  { unfold le_icp_path, read_json. by destruct Hh as [-> | [msg ->]]. }
  assert (le_icp_path fs' = None) as Hle'.
  { unfold le_icp_path, read_json. rewrite Hh'. by destruct Hh as [-> | [msg ->]]. }
  unfold seed_verifier_database, read_json. by rewrite Hle, Hle', Hg, Hq.
Qed.

(** X6. A refresh takes the trust root from the directory: when
    [gleif-incept.json] names a non-empty identifier, that identifier is
    the trust root afterwards, whatever was configured before. *)
Theorem refresh_takes_root_from_directory fs st event_data g :
  fs !! gleif_incept_path = Some (Content event_data) →
  get event_data "i" = Ok (JStr g) →
  g ≠ "" →
  GLEIF_ROOT_AID (refresh_verifier_state keri fs st).2 = JStr g.
Proof.
  intros Hf Hi Hne. unfold refresh_verifier_state, read_json.
  rewrite Hf, Hi. simpl. apply String.eqb_neq in Hne as ->. simpl.
  destruct (GLEIF_ROOT_AID st) as [| | | r | |] eqn:Hr; simpl; try done.
  destruct (String.eqb g r) eqn:He; simpl; [| done].
  by apply String.eqb_eq in He as ->.
Qed.

(** X7. The trust root is left alone when the directory has no
    [gleif-incept.json] or the record names no identifier; and a refresh
    that reports failure has changed nothing at all. *)
Theorem refresh_keeps_root fs st :
  (fs !! gleif_incept_path = None
   ∨ (∃ event_data i, fs !! gleif_incept_path = Some (Content event_data)
                      ∧ get event_data "i" = Ok i ∧ truthy i = false) →
   GLEIF_ROOT_AID (refresh_verifier_state keri fs st).2 = GLEIF_ROOT_AID st)
  ∧ ((refresh_verifier_state keri fs st).1 = false →
     (refresh_verifier_state keri fs st).2 = st).
Proof.
  unfold refresh_verifier_state, read_json. split.
  - intros [-> | (event_data & i & -> & -> & Hi)]; simpl; [done |].
    by rewrite Hi.
  - destruct (fs !! gleif_incept_path) as [[event_data | msg] |]; simpl;
      [| done ..].
    by destruct (get event_data "i").
Qed.

End KeyStateStore.

Lemma load_inception_event_malformed_witness :
  load_inception_event Scenario.keri (JObj [("i", Scenario.Q); ("k", JArr [])])
    (kevers Scenario.ready)
  = kevers Scenario.ready.
Proof.
  apply load_inception_event_malformed.
  right; right; left. by exists (JArr []), "list index out of range".
Defined.

Lemma load_inception_event_frame_witness :
  load_inception_event Scenario.keri (Scenario.incept Scenario.Q "Dnew-QVI-key")
    (kevers Scenario.ready) !! KStr "EGLEIF-root-aid"
  = kevers Scenario.ready !! KStr "EGLEIF-root-aid".
Proof.
  by apply (load_inception_event_frame Scenario.keri _ _ Scenario.Q (KStr "EQVI-aid")).
Defined.

(** The identifiers loaded from the scenario's directory survive a
    refresh over an empty directory. *)
Lemma seed_and_refresh_keep_identifiers_witness :
  is_Some (kevers (refresh_verifier_state Scenario.keri ∅ Scenario.ready).2
           !! KStr "EQVI-aid").
Proof.
  apply (seed_and_refresh_keep_identifiers Scenario.keri ∅ Scenario.ready).
  eexists. vm_compute. reflexivity.
Defined.

Lemma seed_without_habitats_witness :
  seed_verifier_database Scenario.keri
    (delete "icp/ELegalEntity-aid" (delete "habitats.json" Scenario.store)) ∅
  = seed_verifier_database Scenario.keri (delete "habitats.json" Scenario.store) ∅.
Proof.
  apply seed_without_habitats.
  - left. vm_compute. reflexivity.
  - vm_compute. reflexivity.
  - vm_compute. reflexivity.
  - vm_compute. reflexivity.
Defined.

(** A verifier configured with another root adopts the directory's. *)
Lemma refresh_takes_root_from_directory_witness :
  GLEIF_ROOT_AID
    (refresh_verifier_state Scenario.keri Scenario.store
       {| GLEIF_ROOT_AID := JStr "Econfigured-root"; kevers := ∅ |}).2
  = Scenario.R.
Proof.
  apply (refresh_takes_root_from_directory Scenario.keri Scenario.store _
           (Scenario.incept Scenario.R Scenario.key_R)).
  - vm_compute. reflexivity.
  - reflexivity.
  - discriminate.
Defined.

Lemma refresh_keeps_root_witness :
  GLEIF_ROOT_AID (refresh_verifier_state Scenario.keri ∅ Scenario.start).2
  = GLEIF_ROOT_AID Scenario.start
  ∧ (refresh_verifier_state Scenario.keri Scenario.store_gleif_unreadable
       Scenario.start).2 = Scenario.start.
Proof.
  split.
  - apply (refresh_keeps_root Scenario.keri ∅ Scenario.start). by left.
  - apply (refresh_keeps_root Scenario.keri Scenario.store_gleif_unreadable
             Scenario.start).
    vm_compute. reflexivity.
Defined.

(** ** Further properties of the stages *)

Section Stages.

Context (keri : KeriLib) (py_str : json → string).

Lemma check_fields_Valid s s' :
  check_fields s = Valid s' ↔
  s' = s
  ∧ Forall (λ field, is_Some (assoc field (sad s))) required_fields
  ∧ ∃ v, assoc "v" (sad s) = Some (JStr v) ∧ String.prefix "ACDC" v = true.
Proof.
  unfold check_fields.
  destruct (List.find _ required_fields) as [field |] eqn:Hfind.
  - split; [done |]. intros (_ & Hall & _).
    apply List.find_some in Hfind as [Hin Hmiss].
    rewrite Forall_forall in Hall. apply list_elem_of_In, Hall in Hin.
    by rewrite bool_decide_eq_true_2 in Hmiss.
  - assert (Forall (λ field, is_Some (assoc field (sad s))) required_fields) as Hall.
    { apply Forall_forall. intros field Hin%list_elem_of_In.
      pose proof (List.find_none _ _ Hfind field Hin) as Hf. simpl in Hf.
      apply negb_false_iff, bool_decide_eq_true in Hf. done. }
    assert (is_Some (assoc "v" (sad s))) as [v Hv].
    { rewrite Forall_forall in Hall. apply Hall. set_solver. }
    simpl. rewrite Hv. simpl.
    destruct v as [| | | v | |]; simpl;
      try (split; [done | by intros (_ & _ & ? & [= ] & _)]).
    destruct (String.prefix "ACDC" v) eqn:Hp; simpl.
    + split; [intros [= <-]; eauto | by intros (-> & _)].
    + split; [done |]. intros (_ & _ & v' & [= <-] & Hp'). congruence.
Qed.

(** X8. A credential passes the structure stage only when the library
    parsed it as it stands or rebuilt it with [makify=True], and the
    parsed body has the fields v, d, i, s, a and a version string that
    starts with 'ACDC'. *)
Theorem validate_credential_structure_Valid credential s credential' :
  validate_credential_structure keri credential = (Valid s, credential') →
  (SerderACDC keri credential = Ok s ∧ credential' = credential
   ∨ ∃ msg, SerderACDC keri credential = Raise msg
            ∧ SerderACDC_makify keri credential = Ok (s, credential'))
  ∧ Forall (λ field, is_Some (assoc field (sad s))) ["v"; "d"; "i"; "s"; "a"]
  ∧ ∃ v, assoc "v" (sad s) = Some (JStr v) ∧ String.prefix "ACDC" v = true.
Proof.
  unfold validate_credential_structure.
  destruct (SerderACDC keri credential) as [s0 | msg] eqn:Hs.
  - intros [= Hc <-]. apply check_fields_Valid in Hc as (-> & Hall & Hv). eauto.
  - destruct (SerderACDC_makify keri credential) as [[s0 c0] | msg'] eqn:Hm;
      [| done].
    intros [= Hc <-]. apply check_fields_Valid in Hc as (-> & Hall & Hv).
    split; [right; eauto | done].
Qed.

(** X9. The signature stage accepts exactly the credentials that are
    dicts the library parses and that carry under [p] a non-empty value
    with a length; it reports that value and its length, and nothing
    about keys. *)
Theorem validate_signatures_Valid st credential issuer_aid report :
  validate_signatures keri st credential issuer_aid = Valid report ↔
  ∃ m s p n,
    credential = JObj m
    ∧ assoc "p" m = Some p
    ∧ SerderACDC keri credential = Ok s
    ∧ truthy p = true
    ∧ len p = Ok n
    ∧ report = {| signatures := p; verified_count := n |}.
Proof.
  unfold validate_signatures. split.
  - destruct (contains "p" credential) as [[|] |] eqn:Hc; simpl; [| done ..].
    destruct (SerderACDC keri credential) as [s |] eqn:Hs; simpl; [| done].
    destruct credential as [| | | | | m]; simpl; try done.
    simpl in Hc. injection Hc as Hc. apply bool_decide_eq_true in Hc as [p Hp].
    rewrite Hp. simpl.
    destruct (truthy p) eqn:Ht; simpl; [| done].
    destruct (len p) as [n |] eqn:Hn; simpl; [| done].
    intros [= <-]. eauto 10.
  - intros (m & s & p & n & -> & Hp & Hs & Ht & Hn & ->). simpl.
    rewrite Hp; simpl. rewrite Hs; simpl. rewrite Ht; simpl. by rewrite Hn.
Qed.

(** X10. The traversal succeeds exactly when the credential has a
    subject [i] and [qvi-credential.json] is a readable dict whose
    subject [i] is equal to the resolved issuer and whose attributes
    name a non-empty issuer; the chain is subject, issuer, that issuer's
    issuer. *)
Theorem traverse_issuance_chain_registry fs credential issuer_aid chain :
  traverse_issuance_chain py_str fs credential issuer_aid = Valid chain ↔
  ∃ le_aid qvi_cred i gleif_aid,
    getitem credential "i" = Ok le_aid
    ∧ fs !! qvi_credential_path = Some (Content qvi_cred)
    ∧ get qvi_cred "i" = Ok i
    ∧ py_eq i issuer_aid = true
    ∧ embedded_issuer qvi_cred = Ok gleif_aid
    ∧ truthy gleif_aid = true
    ∧ chain = [ {| level := "Legal Entity"; aid := le_aid |};
                {| level := "QVI"; aid := issuer_aid |};
                {| level := "GLEIF"; aid := gleif_aid |} ].
Proof.
  rewrite traverse_issuance_chain_Valid. unfold registry_gleif_aid, read_json.
  split.
  - intros (le_aid & Hle & Ht & ->). revert Ht.
    destruct (fs !! qvi_credential_path) as [[qvi_cred | msg] |]; simpl; [| done ..].
    destruct (get qvi_cred "i") as [i |] eqn:Hi; simpl; [| done].
    destruct (py_eq i issuer_aid) eqn:He; simpl; [| done].
    destruct (embedded_issuer qvi_cred) as [g |] eqn:Hg; simpl; [| done].
    intros Ht. exists le_aid, qvi_cred, i, g. by split_and!.
  - intros (le_aid & qvi_cred & i & g & Hle & Hf & Hi & He & Hg & Ht & ->).
    exists le_aid. rewrite Hf; simpl. rewrite Hi; simpl. rewrite He, Hg; simpl.
    by split_and!.
Qed.

(** X11. Without a readable [qvi-credential.json] no credential is
    verified, whatever the request and the verifier state. *)
Theorem no_parent_credential_never_verified
    fs st credential issuer_aid expected_did credential_said issuer chain :
  fs !! qvi_credential_path = None
  ∨ (∃ msg, fs !! qvi_credential_path = Some (Unreadable msg)) →
  verify_acdc_credential keri py_str fs st credential issuer_aid expected_did
  ≠ Verified credential_said issuer chain.
Proof.
  intros Hf Hv.
  apply verify_acdc_credential_Verified in Hv as (s & c' & _ & _ & _ & _ & Ht & _).
  apply traverse_issuance_chain_Valid in Ht as (le_aid & _ & Ht & _).
  unfold registry_gleif_aid, read_json in Ht.
  by destruct Hf as [Hf | [msg Hf]]; rewrite Hf in Ht.
Qed.

(** X12. Every rejection carries one of seven step tags. *)
Theorem verify_acdc_credential_steps
    fs st credential issuer_aid expected_did reason step :
  verify_acdc_credential keri py_str fs st credential issuer_aid expected_did
  = Rejected reason step →
  step ∈ ["structure_validation"; "did_binding"; "resolution";
          "signature_validation"; "chain_traversal"; "gleif_verification";
          "process_error"].
Proof.
  unfold verify_acdc_credential.
  destruct (validate_credential_structure keri credential) as [[s | r1] c'];
    simpl; [| intros [= _ <-]; set_solver].
  destruct (did_binding c' expected_did) as [[|] |]; simpl;
    [| intros [= _ <-]; set_solver ..].
  destruct (resolve_credential_and_issuer keri fs c' issuer_aid); simpl;
    [| intros [= _ <-]; set_solver].
  destruct (validate_signatures keri st c' _); simpl;
    [| intros [= _ <-]; set_solver].
  destruct (traverse_issuance_chain py_str fs c' _); simpl;
    [| intros [= _ <-]; set_solver].
  destruct (verify_gleif_root py_str st _); simpl;
    [| intros [= _ <-]; set_solver].
  destruct (get c' "d"); simpl; [done | intros [= _ <-]; set_solver].
Qed.

(** X13. The tag 'process_error' has one cause: the structure stage
    passed, a DID is expected, and the credential or its attribute block
    [a] is not a dict, so that reading [a.alsoKnownAs] raises. *)
Theorem verify_acdc_credential_process_error
    fs st credential issuer_aid expected_did :
  (∃ reason,
     verify_acdc_credential keri py_str fs st credential issuer_aid expected_did
     = Rejected reason "process_error") ↔
  ∃ s credential' msg,
    validate_credential_structure keri credential = (Valid s, credential')
    ∧ truthy expected_did = true
    ∧ (a ← get_default credential' "a" (JObj []); get a "alsoKnownAs") = Raise msg.
Proof.
  unfold verify_acdc_credential.
  destruct (validate_credential_structure keri credential) as [[s | r1] c'];
    simpl; [| split; [by intros [? [=]] | by intros (? & ? & ? & [=] & _)]].
  unfold did_binding.
  destruct (truthy expected_did) eqn:He; simpl.
  - destruct (get_default c' "a" (JObj [])) as [a | msg] eqn:Ha; simpl.
    2:{ split; [intros _ | eauto]. exists s, c', msg. by rewrite Ha. }
    destruct (get a "alsoKnownAs") as [aka | msg] eqn:Hk; simpl.
    2:{ split; [intros _ | eauto]. exists s, c', msg. rewrite Ha; simpl.
        by rewrite Hk. }
    split.
    2:{ intros (? & ? & msg & [= <- <-] & _ & Hr).
        rewrite Ha in Hr; simpl in Hr. congruence. }
    intros [reason H]. exfalso. revert H.
    destruct (match aka with JArr l => existsb (py_eq expected_did) l | _ => false end);
      simpl; [| done].
    destruct (resolve_credential_and_issuer keri fs c' issuer_aid); simpl; [| done].
    destruct (validate_signatures keri st c' _); simpl; [| done].
    destruct (traverse_issuance_chain py_str fs c' _) eqn:Ht; simpl; [| done].
    destruct (verify_gleif_root py_str st _); simpl; [| done].
    apply traverse_issuance_chain_Valid in Ht as (le & Hle & _).
    by destruct c'.
  - split; [| by intros (? & ? & ? & _ & [=] & _)].
    intros [reason H]. exfalso. revert H.
    destruct (resolve_credential_and_issuer keri fs c' issuer_aid); simpl; [| done].
    destruct (validate_signatures keri st c' _); simpl; [| done].
    destruct (traverse_issuance_chain py_str fs c' _) eqn:Ht; simpl; [| done].
    destruct (verify_gleif_root py_str st _); simpl; [| done].
    apply traverse_issuance_chain_Valid in Ht as (le & Hle & _).
    by destruct c'.
Qed.

End Stages.

(** ** Further properties of the pipeline and the endpoint *)

Section Requests.

Context (keri : KeriLib) (py_str : json → string).

Lemma source_yields_truthy fs credential issuer_aid x :
  source_yields fs credential issuer_aid x → truthy x = true.
Proof. by destruct 1. Qed.

(** X14. What a verified result says: the issuer it reports is a
    non-empty, well-formed identifier and is the second entry of the
    chain; the last entry is equal to the trust root, which has a key
    state with a key. The first entry and the reported identifier of
    the credential are the [i] and the [d] of the dict as the structure
    stage leaves it: the submitted dict when the library parses it as
    it stands, and otherwise the dict the rebuild with [makify=True]
    returns, whose [d] need not be the submitted one. *)
Theorem verified_result_shape
    fs st credential issuer_aid expected_did credential_said issuer chain :
  verify_acdc_credential keri py_str fs st credential issuer_aid expected_did
  = Verified credential_said issuer chain →
  ∃ s credential' le_aid gleif_aid kever,
    validate_credential_structure keri credential = (Valid s, credential')
    ∧ (SerderACDC keri credential = Ok s ∧ credential' = credential
       ∨ ∃ msg, SerderACDC keri credential = Raise msg
                ∧ SerderACDC_makify keri credential = Ok (s, credential'))
    ∧ get credential' "d" = Ok credential_said
    ∧ getitem credential' "i" = Ok le_aid
    ∧ truthy issuer = true
    ∧ Prefixer keri issuer = Ok ()
    ∧ chain = [ {| level := "Legal Entity"; aid := le_aid |};
                {| level := "QVI"; aid := issuer |};
                {| level := "GLEIF"; aid := gleif_aid |} ]
    ∧ py_eq gleif_aid (GLEIF_ROOT_AID st) = true
    ∧ root_key_state st = Some kever
    ∧ verfers kever ≠ [].
Proof.
  intros (s & c' & H1 & _ & H3 & _ & H5 & H6 & H7)%verify_acdc_credential_Verified.
  apply resolve_credential_and_issuer_Resolved in H3 as (_ & Hy & Hp).
  apply source_yields_truthy in Hy.
  apply traverse_issuance_chain_Valid in H5 as (le & Hle & _ & ->).
  apply verify_gleif_root_Valid in H6 as (e & kever & [= <-] & _ & He & Hk & Hv).
  exists s, c', le, (registry_gleif_aid fs issuer), kever. split_and!; try done.
  revert H1. unfold validate_credential_structure.
  destruct (SerderACDC keri credential) as [s0 | msg] eqn:Hs.
  - intros [= Hc <-]. left. by apply check_fields_Valid in Hc as (-> & _).
  - destruct (SerderACDC_makify keri credential) as [[s0 c0] | msg'] eqn:Hm;
      [| done].
    intros [= Hc <-]. right. exists msg.
    by apply check_fields_Valid in Hc as (-> & _).
Qed.

(** X15. The pipeline reads the key-state table at the trust root only:
    two verifier states with the same trust root and the same entry for
    it give the same result for every request. *)
Theorem verify_acdc_credential_reads_root_only
    fs st st' credential issuer_aid expected_did :
  GLEIF_ROOT_AID st = GLEIF_ROOT_AID st' →
  kevers_get (kevers st) (GLEIF_ROOT_AID st)
  = kevers_get (kevers st') (GLEIF_ROOT_AID st') →
  verify_acdc_credential keri py_str fs st credential issuer_aid expected_did
  = verify_acdc_credential keri py_str fs st' credential issuer_aid expected_did.
Proof.
  intros Hroot Hkevers.
  assert (∀ chain, verify_gleif_root py_str st chain
                   = verify_gleif_root py_str st' chain) as Hg.
  { intros chain. unfold verify_gleif_root. by rewrite Hkevers, Hroot. }
  unfold verify_acdc_credential.
  destruct (validate_credential_structure keri credential) as [[s | r1] c'];
    simpl; [| done].
  destruct (did_binding c' expected_did) as [[|] |]; simpl; [| done ..].
  destruct (resolve_credential_and_issuer keri fs c' issuer_aid) as [i |];
    simpl; [| done].
  rewrite (validate_signatures_ignores_key_state keri st st').
  destruct (validate_signatures keri st' c' i); simpl; [| done].
  destruct (traverse_issuance_chain py_str fs c' i); simpl; [| done].
  by rewrite Hg.
Qed.

(** X16. The binding stage rejects exactly when the structure stage
    passed, a DID is expected, and [a.alsoKnownAs] can be read and is
    not a list with an element equal to the expected DID. *)
Theorem did_binding_rejection fs st credential issuer_aid expected_did :
  (∃ reason,
     verify_acdc_credential keri py_str fs st credential issuer_aid expected_did
     = Rejected reason "did_binding") ↔
  ∃ s credential' a also_known_as,
    validate_credential_structure keri credential = (Valid s, credential')
    ∧ truthy expected_did = true
    ∧ get_default credential' "a" (JObj []) = Ok a
    ∧ get a "alsoKnownAs" = Ok also_known_as
    ∧ ¬ ∃ l x, also_known_as = JArr l ∧ x ∈ l ∧ py_eq expected_did x = true.
Proof.
  unfold verify_acdc_credential.
  destruct (validate_credential_structure keri credential) as [[s | r1] c'];
    simpl; [| split; [by intros [? [=]] | by intros (? & ? & ? & ? & [=] & _)]].
  assert (∀ r : verification,
            (∀ reason, r ≠ Rejected reason "did_binding") →
            ¬ ∃ reason, r = Rejected reason "did_binding") as Hnot
    by (intros r Hr [reason ->]; by eapply Hr).
  assert (∀ reason,
            try_except
              (match resolve_credential_and_issuer keri fs c' issuer_aid with
               | Unresolved reason =>
                   Ok (Rejected ("Failed to resolve credential/issuer: " +:+ reason)
                         "resolution")
               | Resolved issuer_aid =>
               match validate_signatures keri st c' issuer_aid with
               | Invalid reason =>
                   Ok (Rejected ("Signature validation failed: " +:+ reason)
                         "signature_validation")
               | Valid _ =>
               match traverse_issuance_chain py_str fs c' issuer_aid with
               | Invalid reason =>
                   Ok (Rejected ("Issuance chain validation failed: " +:+ reason)
                         "chain_traversal")
               | Valid chain =>
               match verify_gleif_root py_str st chain with
               | Invalid reason =>
                   Ok (Rejected ("GLEIF root verification failed: " +:+ reason)
                         "gleif_verification")
               | Valid _ =>
                   credential_said ← get c' "d";
                   Ok (Verified credential_said issuer_aid chain)
               end end end end)
              (λ msg, Rejected ("Verification process error: " +:+ msg) "process_error")
            ≠ Rejected reason "did_binding") as Hrest.
  { intros reason.
    destruct (resolve_credential_and_issuer keri fs c' issuer_aid); simpl; [| done].
    destruct (validate_signatures keri st c' _); simpl; [| done].
    destruct (traverse_issuance_chain py_str fs c' _); simpl; [| done].
    destruct (verify_gleif_root py_str st _); simpl; [| done].
    by destruct (get c' "d"). }
  unfold did_binding.
  destruct (truthy expected_did) eqn:He; simpl.
  2:{ split; [| by intros (? & ? & ? & ? & _ & [=] & _)].
      intros H. by apply Hnot in H. }
  destruct (get_default c' "a" (JObj [])) as [a | msg] eqn:Ha; simpl.
  2:{ split; [by intros [? [=]] |].
      intros (? & ? & ? & ? & [= <- <-] & _ & Ha' & _). congruence. }
  destruct (get a "alsoKnownAs") as [aka | msg] eqn:Hk; simpl.
  2:{ split; [by intros [? [=]] |].
      intros (? & ? & ? & ? & [= <- <-] & _ & Ha' & Hk' & _). congruence. }
  destruct (match aka with JArr l => existsb (py_eq expected_did) l | _ => false end)
    eqn:Hin; simpl.
  - split; [intros H; by apply Hnot in H |].
    intros (? & ? & a' & aka' & [= <- <-] & _ & Ha' & Hk' & Hno).
    assert (a' = a) as -> by congruence. assert (aka' = aka) as -> by congruence.
    destruct Hno. destruct aka as [| | | | l |]; try done.
    apply existsb_exists in Hin as (x & Hx & Hpx).
    exists l, x. split_and!; [done | by apply list_elem_of_In | done].
  - split; [intros _ | eauto].
    exists s, c', a, aka. split_and!; try done.
    intros (l & x & -> & Hx & Hpx).
    assert (existsb (py_eq expected_did) l = true); [| congruence].
    apply existsb_exists. exists x. by rewrite <- list_elem_of_In.
Qed.

(** X17. A request without a credential (an empty body, or a body
    without the key [credential]) is answered 400 with a fixed message,
    and the verifier state is not refreshed. *)
Theorem verify_credential_missing_credential fs st data :
  truthy data = false ∨ contains "credential" data = Ok false →
  verify_credential keri py_str fs st (Ok data)
  = ({| status := 400;
        body := JObj [("success", JBool false);
                      ("error", JStr "Missing 'credential' in request body")] |},
     st).
Proof.
  unfold verify_credential. simpl.
  destruct (truthy data); simpl; [| done].
  by intros [[=] | ->].
Qed.

(** X18. The endpoint answers 200 exactly when the request carries a
    credential dict that the pipeline verifies against the refreshed
    state; such a request is answered with the body that reports
    success with the verified result as its details, and the state left
    is the refreshed one. *)
Theorem verify_credential_ok fs st request :
  (status (verify_credential keri py_str fs st request).1 = 200%Z ↔
   ∃ data credential issuer_aid expected_did d0 credential_said issuer chain,
     request = Ok data
     ∧ getitem data "credential" = Ok credential
     ∧ get data "issuer_aid" = Ok issuer_aid
     ∧ get data "expected_did" = Ok expected_did
     ∧ get_default credential "d" (JStr "unknown") = Ok d0
     ∧ verify_acdc_credential keri py_str fs (refresh_verifier_state keri fs st).2
         credential issuer_aid expected_did
       = Verified credential_said issuer chain)
  ∧ ∀ data credential issuer_aid expected_did d0 credential_said issuer chain,
      request = Ok data →
      getitem data "credential" = Ok credential →
      get data "issuer_aid" = Ok issuer_aid →
      get data "expected_did" = Ok expected_did →
      get_default credential "d" (JStr "unknown") = Ok d0 →
      verify_acdc_credential keri py_str fs (refresh_verifier_state keri fs st).2
        credential issuer_aid expected_did
      = Verified credential_said issuer chain →
      verify_credential keri py_str fs st request
      = ({| status := 200;
            body := JObj [("success", JBool true);
                          ("verified", JBool true);
                          ("message", JStr "Credential verified successfully");
                          ("details",
                           verification_json (Verified credential_said issuer chain))] |},
         (refresh_verifier_state keri fs st).2).
Proof.
  assert (∀ data credential issuer_aid expected_did d0 credential_said issuer chain,
      request = Ok data →
      getitem data "credential" = Ok credential →
      get data "issuer_aid" = Ok issuer_aid →
      get data "expected_did" = Ok expected_did →
      get_default credential "d" (JStr "unknown") = Ok d0 →
      verify_acdc_credential keri py_str fs (refresh_verifier_state keri fs st).2
        credential issuer_aid expected_did
      = Verified credential_said issuer chain →
      verify_credential keri py_str fs st request
      = ({| status := 200;
            body := JObj [("success", JBool true);
                          ("verified", JBool true);
                          ("message", JStr "Credential verified successfully");
                          ("details",
                           verification_json (Verified credential_said issuer chain))] |},
         (refresh_verifier_state keri fs st).2)) as Hif.
  { intros data credential issuer_aid expected_did d0 d i chain -> Hg Hi He Hd Hv.
    unfold verify_credential. simpl.
    assert (truthy data = true ∧ contains "credential" data = Ok true) as [-> ->].
    { destruct data as [| | | | | m]; try done. simpl in Hg |- *.
      destruct (assoc "credential" m) as [c |] eqn:Hc; [| done].
      split; [by destruct m |]. f_equal; by apply bool_decide_eq_true. }
    simpl. rewrite Hg; simpl. rewrite Hi; simpl. rewrite He; simpl.
    rewrite Hd; simpl. by rewrite Hv. }
  split; [split |]; [| | exact Hif].
  - unfold verify_credential.
    destruct request as [data | msg]; simpl; [| done].
    destruct (truthy data) eqn:Hd; simpl; [| done].
    destruct (contains "credential" data) as [[|] | msg] eqn:Hc; simpl; [| done ..].
    destruct (getitem data "credential") as [credential | msg] eqn:Hg; simpl; [| done].
    destruct (get data "issuer_aid") as [issuer_aid | msg] eqn:Hi; simpl; [| done].
    destruct (get data "expected_did") as [expected_did | msg] eqn:He; simpl; [| done].
    destruct (get_default credential "d" (JStr "unknown")) as [d0 | msg] eqn:Hdd;
      simpl; [| done].
    destruct (verify_acdc_credential keri py_str fs _ credential issuer_aid expected_did)
      as [d i chain | reason step] eqn:Hv; simpl; [| done].
    intros _. exists data, credential, issuer_aid, expected_did, d0, d, i, chain.
    by split_and!.
  - intros (data & c & i & e & d0 & d & iss & chain & H1 & H2 & H3 & H4 & H5 & H6).
    by rewrite (Hif _ _ _ _ _ _ _ _ H1 H2 H3 H4 H5 H6).
Qed.

Lemma refresh_verifier_state_again fs st :
  (refresh_verifier_state keri fs (refresh_verifier_state keri fs st).2).2
  = (refresh_verifier_state keri fs st).2.
Proof.
  unfold refresh_verifier_state.
  destruct (read_json fs gleif_incept_path) as [[event_data |] |]; simpl;
    [| by rewrite seed_verifier_database_idempotent | done].
  destruct (get event_data "i") as [new_gleif |]; simpl; [| done].
  rewrite seed_verifier_database_idempotent. f_equal.
  destruct (truthy new_gleif); simpl; [| done].
  destruct (py_eq new_gleif (GLEIF_ROOT_AID st)) eqn:He; simpl.
  - by rewrite He.
  - by rewrite py_eq_refl.
Qed.

(** X19. Sending the same request again over an unchanged directory
    gives the same response and leaves the same state: a request leaves
    nothing behind that a later one can observe, beyond the refresh. *)
Theorem verify_credential_repeat fs st request :
  verify_credential keri py_str fs
    (verify_credential keri py_str fs st request).2 request
  = verify_credential keri py_str fs st request.
Proof.
  unfold verify_credential.
  destruct request as [data | msg]; simpl; [| done].
  destruct (truthy data) eqn:Hd; simpl; [| done].
  destruct (contains "credential" data) as [[|] | msg] eqn:Hc; simpl; [| done ..].
  destruct (getitem data "credential") as [credential | msg] eqn:Hg; simpl; [| done].
  destruct (get data "issuer_aid") as [issuer_aid | msg] eqn:Hi; simpl; [| done].
  destruct (get data "expected_did") as [expected_did | msg] eqn:He; simpl; [| done].
  destruct (get_default credential "d" (JStr "unknown")) as [d0 | msg] eqn:Hdd;
    simpl; [| done].
  destruct (verify_acdc_credential keri py_str fs (refresh_verifier_state keri fs st).2
              credential issuer_aid expected_did) eqn:Hv; simpl;
    by rewrite refresh_verifier_state_again, Hv.
Qed.

End Requests.

(** *** Runs of the scenario *)

Lemma validate_credential_structure_Valid_witness :
  match Scenario.C2 with
  | JObj m => Forall (λ field, is_Some (assoc field m)) ["v"; "d"; "i"; "s"; "a"]
  | _ => False
  end.
Proof.
  assert (∃ m, Scenario.C2 = JObj m
               ∧ validate_credential_structure Scenario.keri Scenario.C2
                 = (Valid (Serder m), Scenario.C2)) as (m & Hm & Hv)
    by (eexists; split; vm_compute; reflexivity).
  rewrite Hm.
  exact (proj1 (proj2 (validate_credential_structure_Valid Scenario.keri
                         Scenario.C2 (Serder m) Scenario.C2 Hv))).
Defined.

(** With the parent credential deleted from the store, the scenario's
    credential is not verified. *)
Lemma no_parent_credential_never_verified_witness :
  verify_acdc_credential Scenario.keri Scenario.py_str
    (delete "qvi-credential.json" Scenario.store) Scenario.ready
    Scenario.C2 JNull JNull
  ≠ Verified (JStr "E469168") Scenario.Q Scenario.chain_LQR.
Proof.
  apply no_parent_credential_never_verified. left. vm_compute. reflexivity.
Defined.

Lemma verify_acdc_credential_steps_witness :
  "resolution" ∈ ["structure_validation"; "did_binding"; "resolution";
                  "signature_validation"; "chain_traversal"; "gleif_verification";
                  "process_error"].
Proof.
  apply (verify_acdc_credential_steps Scenario.keri Scenario.py_str
           Scenario.store Scenario.ready Scenario.C2_tampered JNull JNull
           "Failed to resolve credential/issuer: Resolution error: Invalid sad for Serder").
  vm_compute. reflexivity.
Defined.

(** The scenario's signed credential under the library that rebuilds in
    place: it is verified through the rebuild, and the identifier
    reported is the rebuilt [d], not the submitted one. *)
Lemma verified_result_shape_witness :
  get Scenario.C2 "d" = Ok (JStr "E469168")
  ∧ ∃ msg s credential',
      SerderACDC Keripy.v11 Scenario.C2 = Raise msg
      ∧ SerderACDC_makify Keripy.v11 Scenario.C2 = Ok (s, credential')
      ∧ get credential' "d" = Ok (JStr "E344665").
Proof.
  split; [reflexivity |].
  destruct (verified_result_shape Keripy.v11 Scenario.py_str
              Scenario.store Scenario.ready Scenario.C2 JNull JNull
              (JStr "E344665") Scenario.Q Scenario.chain_LQR)
    as (s & c' & _ & _ & _ & _ & [[Hs _] | (msg & Hs & Hm)] & Hd & _).
  - vm_compute. reflexivity.
  - vm_compute in Hs. discriminate.
  - by exists msg, s, c'.
Defined.

(** Dropping the issuer's key state changes nothing in the result. *)
Lemma verify_acdc_credential_reads_root_only_witness :
  verify_acdc_credential Scenario.keri Scenario.py_str Scenario.store
    Scenario.ready Scenario.C2 JNull JNull
  = verify_acdc_credential Scenario.keri Scenario.py_str Scenario.store
      {| GLEIF_ROOT_AID := Scenario.R;
         kevers := delete (KStr "EQVI-aid") (kevers Scenario.ready) |}
      Scenario.C2 JNull JNull.
Proof.
  apply verify_acdc_credential_reads_root_only.
  - reflexivity.
  - vm_compute. reflexivity.
Defined.

Lemma verify_credential_missing_credential_witness :
  verify_credential Scenario.keri Scenario.py_str Scenario.store Scenario.start
    (Ok (JObj [("issuer_aid", Scenario.Q)]))
  = ({| status := 400;
        body := JObj [("success", JBool false);
                      ("error", JStr "Missing 'credential' in request body")] |},
     Scenario.start).
Proof.
  apply verify_credential_missing_credential. right. reflexivity.
Defined.

(** ** The issuer pipeline *)

(** *** Occurrences of a non-empty pattern *)

Lemma prefix_substring t s n :
  String.prefix t (String.substring 0 n s) = true → String.prefix t s = true.
Proof.
  revert s n. induction t as [| a t IHt]; intros s n; [by destruct s |].
  destruct s as [| c s]; [by destruct n |].
  destruct n as [| n]; [done |]. simpl.
  destruct (Ascii.ascii_dec a c); [apply IHt | done].
Qed.

Section Occurrences.

Local Open Scope nat_scope.

Context (sub : string) (Hsub : sub ≠ "").

(** [sub] occurs in [s] at position [p]. *)
Local Abbreviation occurs s p := (String.substring p (String.length sub) s = sub).

Lemma occurs_empty p : ¬ occurs "" p.
Proof. destruct p, (String.length sub); simpl; congruence. Qed.

Lemma prefix_occurs s : String.prefix sub s = true ↔ occurs s 0.
Proof. apply String.prefix_correct. Qed.

Lemma count_from_none s skip :
  (∀ p, skip ≤ p → ¬ occurs s p) → count_from sub skip s = 0.
Proof.
  revert skip. induction s as [| c s IH]; intros skip Hno; cbn [count_from].
  - destruct skip; [| done]. by destruct sub.
  - destruct skip as [| k].
    + destruct (String.prefix sub (String c s)) eqn:Hp.
      { apply prefix_occurs in Hp. by apply Hno in Hp; [| lia]. }
      apply IH. intros p _ Hocc. by apply (Hno (S p)); [lia |].
    + apply IH. intros p Hp Hocc. by apply (Hno (S p)); [lia |].
Qed.

Lemma count_from_at_most_one s skip q :
  (∀ p, skip ≤ p → occurs s p → p = q) → count_from sub skip s ≤ 1.
Proof.
  revert skip q. induction s as [| c s IH]; intros skip q Hone; cbn [count_from].
  - destruct skip; [| lia]. destruct (String.prefix sub ""); lia.
  - destruct skip as [| k].
    + destruct (String.prefix sub (String c s)) eqn:Hp.
      * apply prefix_occurs in Hp. pose proof (Hone 0 (Nat.le_0_l _) Hp) as <-.
        rewrite count_from_none; [lia |].
        intros p _ Hocc. by pose proof (Hone (S p) (Nat.le_0_l _) Hocc).
      * apply (IH 0 (Nat.pred q)). intros p _ Hocc.
        pose proof (Hone (S p) (Nat.le_0_l _) Hocc). lia.
    + apply (IH k (Nat.pred q)). intros p Hp Hocc.
      assert (S p = q) by (apply Hone; [lia | done]). lia.
Qed.

Lemma occurs_substring s n p :
  occurs (String.substring 0 n s) p → occurs s p ∧ p < n.
Proof.
  revert n p. induction s as [| c s IH]; intros n p Hocc.
  - destruct n; simpl in Hocc; by apply occurs_empty in Hocc.
  - destruct n as [| n]; [by apply occurs_empty in Hocc |].
    destruct p as [| p].
    + split; [| lia]. apply prefix_occurs. apply prefix_occurs in Hocc.
      by apply (prefix_substring _ _ (S n)).
    + simpl in Hocc. apply IH in Hocc as [Hocc Hp]. split; [done | lia].
Qed.

Lemma prefix_substring_self s n : String.prefix (String.substring 0 n s) s = true.
Proof.
  revert n. induction s as [| c s IH]; intros [| n]; simpl; try done.
  destruct (Ascii.ascii_dec c c); [apply IH | done].
Qed.

Lemma prefix_refl s : String.prefix s s = true.
Proof.
  induction s as [| c s IH]; simpl; [done |].
  by destruct (Ascii.ascii_dec c c).
Qed.

(** Cutting before the second occurrence leaves at most one. *)
Lemma count_cut s first second :
  String.index 0 sub s = Some first →
  String.index (first + 1) sub s = Some second →
  count sub (String.substring 0 second s) ≤ 1.
Proof.
  intros Hfirst Hsecond. apply (count_from_at_most_one _ 0 first).
  intros p _ [Hocc Hp]%occurs_substring.
  destruct (decide (p < first)) as [Hlt |].
  { by destruct (String.index_correct2 _ _ _ _ Hfirst p (Nat.le_0_l _) Hlt). }
  destruct (decide (p = first)) as [| Hne]; [done |].
  destruct (String.index_correct2 _ _ _ _ Hsecond p); [lia | done | done].
Qed.

Lemma count_no_second s first :
  String.index 0 sub s = Some first →
  String.index (first + 1) sub s = None →
  count sub s ≤ 1.
Proof.
  intros Hfirst Hsecond. apply (count_from_at_most_one _ 0 first).
  intros p _ Hocc.
  destruct (decide (p < first)) as [Hlt |].
  { by destruct (String.index_correct2 _ _ _ _ Hfirst p (Nat.le_0_l _) Hlt). }
  destruct (decide (p = first)) as [| Hne]; [done |].
  destruct (String.index_correct3 _ p _ _ Hsecond Hsub); [lia | done].
Qed.

End Occurrences.

(** X20. The DID the script works with is a prefix of the stripped
    argument and holds the prefix [did:iota:] at most once, whatever the
    argument. *)
Theorem sanitize_did_at_most_one raw_did :
  (count "did:iota:" (sanitize_did raw_did) ≤ 1)%nat
  ∧ String.prefix (sanitize_did raw_did) (strip raw_did) = true.
Proof.
  unfold sanitize_did.
  destruct (1 <? count "did:iota:" (strip raw_did))%nat eqn:Hc.
  2:{ apply Nat.ltb_ge in Hc. split; [done | apply prefix_refl]. }
  destruct (String.index 0 "did:iota:" (strip raw_did)) as [first |] eqn:Hfirst.
  2:{ split; [| apply prefix_refl]. unfold count. rewrite count_from_none; [lia | done |].
      intros p _. apply (String.index_correct3 0 p _ _ Hfirst); [done | lia]. }
  destruct (String.index (first + 1) "did:iota:" (strip raw_did))
    as [second |] eqn:Hsecond.
  - split; [by eapply count_cut | apply prefix_substring_self].
  - split; [by eapply count_no_second | apply prefix_refl].
Qed.

(** *** What the script writes *)

(** The file of the Legal Entity's record is none of the files the
    script names itself. *)
Lemma icp_file_ne name k :
  String.prefix "/" k = false → String.prefix "icp/" k = false →
  icp_file name ≠ k.
Proof.
  intros H1 H2 <-. unfold icp_file in *.
  destruct (String.prefix "/" name) eqn:Hp; [congruence |].
  simpl in H2. by destruct name.
Qed.

Ltac distinct_names :=
  solve [ done | by apply icp_file_ne | by apply not_eq_sym, icp_file_ne ].

Section Issuer.

Context (issuer : KeriIssuer).

(** The directory after a run that returns: the eight files, in the
    order the script writes them. *)
Lemma main_returns args twin_wallet out0 out
    gleif_hab qvi_hab legal_entity_hab gleif_key qvi_key legal_entity_key :
  main issuer args twin_wallet out0 = (Ok (), out) →
  makeHab issuer "gleif" = Ok gleif_hab →
  makeHab issuer "qvi" = Ok qvi_hab →
  makeHab issuer "legal-entity" = Ok legal_entity_hab →
  hab_key gleif_hab = Ok gleif_key →
  hab_key qvi_hab = Ok qvi_key →
  hab_key legal_entity_hab = Ok legal_entity_key →
  ∃ raw_did qvi_schema_said qvi_acdc qvi_signatures schema_said da_acdc da_signatures
    gleif_salt qvi_salt legal_entity_salt,
    args = [raw_did]
    ∧ Schemer issuer qvi_schema = Ok qvi_schema_said
    ∧ makify issuer
        (acdc_body (hab_pre qvi_hab) qvi_schema_said
           (JObj [("issuer", JStr (hab_pre gleif_hab));
                  ("issuee", JStr (hab_pre qvi_hab));
                  ("qualified", JBool true)]))
      = Ok qvi_acdc
    ∧ sign issuer gleif_hab (acdc_raw qvi_acdc) = Ok qvi_signatures
    ∧ Schemer issuer da_schema = Ok schema_said
    ∧ makify issuer
        (acdc_body (hab_pre legal_entity_hab) schema_said
           (JObj [("alsoKnownAs", JArr [JStr (sanitize_did raw_did)])]))
      = Ok da_acdc
    ∧ sign issuer qvi_hab (acdc_raw da_acdc) = Ok da_signatures
    ∧ out =
      <[ "habitats.json" :=
           JsonFile (JObj [("gleif", habitat_entry (hab_pre gleif_hab) gleif_salt);
                           ("qvi", habitat_entry (hab_pre qvi_hab) qvi_salt);
                           ("legal_entity",
                            habitat_entry (hab_pre legal_entity_hab) legal_entity_salt)]) ]>
      (<[ icp_file (hab_pre legal_entity_hab) :=
            JsonFile (icp_data (hab_pre legal_entity_hab) legal_entity_key) ]>
      (<[ "credential-said.txt" := TextFile (acdc_said da_acdc) ]>
      (<[ acdc_said da_acdc := JsonFile (JObj (with_proof da_acdc da_signatures)) ]>
      (<[ "legal-entity-credential.json" :=
            JsonFile (JObj (with_proof da_acdc da_signatures)) ]>
      (<[ "qvi-credential.json" := JsonFile (JObj (with_proof qvi_acdc qvi_signatures)) ]>
      (<[ "qvi-incept.json" := JsonFile (icp_data (hab_pre qvi_hab) qvi_key) ]>
      (<[ "gleif-incept.json" := JsonFile (icp_data (hab_pre gleif_hab) gleif_key) ]>
       out0))))))).
Proof.
  intros Hmain Hg Hq Hl Hkg Hkq Hkl. revert Hmain.
  destruct args as [| raw_did [| ? ?]]; [done | | done].
  unfold main, script_bind, call, write.
  destruct twin_wallet as [tw |]; [| done].
  destruct (getitem tw "did"); [| done].
  rewrite Hg, Hq, Hl, Hkg, Hkq.
  destruct (Schemer issuer qvi_schema) as [qss |] eqn:Hqss; [| done].
  destruct (makify issuer (acdc_body (hab_pre qvi_hab) qss _)) as [qa |] eqn:Hqa;
    [| done].
  destruct (sign issuer gleif_hab (acdc_raw qa)) as [qsigs |] eqn:Hqsigs; [| done].
  destruct (Schemer issuer da_schema) as [dss |] eqn:Hdss; [| done].
  destruct (makify issuer (acdc_body (hab_pre legal_entity_hab) dss _)) as [da |] eqn:Hda;
    [| done].
  destruct (sign issuer qvi_hab (acdc_raw da)) as [dsigs |] eqn:Hdsigs; [| done].
  rewrite Hkl.
  destruct (hab_salt gleif_hab) as [sg |]; [| done].
  destruct (hab_salt qvi_hab) as [sq |]; [| done].
  destruct (hab_salt legal_entity_hab) as [sl |]; [| done].
  intros [= <-]. exists raw_did, qss, qa, qsigs, dss, da, dsigs, sg, sq, sl.
  by split_and!.
Qed.

(** X21. A run stops before it writes anything when it is not given
    exactly one argument, when [twin-wallet.json] cannot be read or has
    no [did], or when one of the three habitats cannot be made. *)
Theorem main_stops_before_writing args twin_wallet out0 :
  length args ≠ 1
  ∨ (∃ msg, twin_wallet = Raise msg)
  ∨ (∃ tw msg, twin_wallet = Ok tw ∧ getitem tw "did" = Raise msg)
  ∨ (∃ name msg, name ∈ ["gleif"; "qvi"; "legal-entity"]
                 ∧ makeHab issuer name = Raise msg) →
  ∃ msg, main issuer args twin_wallet out0 = (Raise msg, out0).
Proof.
  intros H. destruct args as [| raw_did [| ? ?]]; [by eexists | | by eexists].
  unfold main, script_bind, call, write.
  destruct H as [H | [(msg & ->) | [(tw & msg & -> & Hdid) | (name & msg & Hin & Hm)]]].
  - done.
  - by eexists.
  - rewrite Hdid. by eexists.
  - destruct twin_wallet as [tw |]; [| by eexists].
    destruct (getitem tw "did"); [| by eexists].
    destruct (makeHab issuer "gleif") as [g |] eqn:Hg; [| by eexists].
    destruct (makeHab issuer "qvi") as [q |] eqn:Hq; [| by eexists].
    destruct (makeHab issuer "legal-entity") as [l |] eqn:Hl; [| by eexists].
    repeat (apply elem_of_cons in Hin as [-> | Hin]; [congruence |]).
    by apply elem_of_nil in Hin.
Qed.

Context (keri : KeriLib) (json_loads : string → result json).

(** X22. The verifier loads what the script writes: over the directory
    a returning run leaves, the load inserts the key states of the three
    identifiers, each with the key of its habitat, provided the
    verifier's library accepts the keys, the Legal Entity identifier is
    not empty and no identifier the library gives a credential is the
    name of an inception file. *)
Theorem generated_directory_loads args twin_wallet out0 out kv
    gleif_hab qvi_hab legal_entity_hab gleif_key qvi_key legal_entity_key vg vq vl :
  main issuer args twin_wallet out0 = (Ok (), out) →
  makeHab issuer "gleif" = Ok gleif_hab →
  makeHab issuer "qvi" = Ok qvi_hab →
  makeHab issuer "legal-entity" = Ok legal_entity_hab →
  hab_key gleif_hab = Ok gleif_key →
  hab_key qvi_hab = Ok qvi_key →
  hab_key legal_entity_hab = Ok legal_entity_key →
  Verfer keri (JStr gleif_key) = Ok vg →
  Verfer keri (JStr qvi_key) = Ok vq →
  Verfer keri (JStr legal_entity_key) = Ok vl →
  hab_pre legal_entity_hab ≠ "" →
  (∀ body acdc, makify issuer body = Ok acdc →
     acdc_said acdc ≠ "gleif-incept.json" ∧ acdc_said acdc ≠ "qvi-incept.json") →
  seed_verifier_database keri (as_artifacts json_loads out) kv
  = <[ KStr (hab_pre legal_entity_hab) :=
         [ {| pre := JStr (hab_pre legal_entity_hab); verfers := [vl] |} ] ]>
    (<[ KStr (hab_pre qvi_hab) :=
          [ {| pre := JStr (hab_pre qvi_hab); verfers := [vq] |} ] ]>
    (<[ KStr (hab_pre gleif_hab) :=
          [ {| pre := JStr (hab_pre gleif_hab); verfers := [vg] |} ] ]> kv)).
Proof.
  intros Hmain Hg Hq Hl Hkg Hkq Hkl Hvg Hvq Hvl Hne Hsaid.
  destruct (main_returns _ _ _ _ _ _ _ _ _ _ Hmain Hg Hq Hl Hkg Hkq Hkl)
    as (raw & qss & qa & qsigs & dss & da & dsigs & sg & sq & sl
        & _ & _ & _ & _ & _ & Hda & _ & ->).
  destruct (Hsaid _ _ Hda) as [Hs1 Hs2].
  set (fs := as_artifacts json_loads _).
  assert (fs !! gleif_incept_path
          = Some (Content (icp_data (hab_pre gleif_hab) gleif_key))) as Hfg.
  { unfold fs, as_artifacts. rewrite lookup_fmap.
    rewrite !lookup_insert_ne by distinct_names. by rewrite lookup_insert_eq. }
  assert (fs !! qvi_incept_path
          = Some (Content (icp_data (hab_pre qvi_hab) qvi_key))) as Hfq.
  { unfold fs, as_artifacts. rewrite lookup_fmap.
    rewrite !lookup_insert_ne by distinct_names. by rewrite lookup_insert_eq. }
  assert (le_icp_path fs = Some (icp_file (hab_pre legal_entity_hab))) as Hpath.
  { unfold le_icp_path, read_json, fs, as_artifacts.
    rewrite lookup_fmap, lookup_insert_eq. simpl.
    by apply String.eqb_neq in Hne as ->. }
  assert (fs !! icp_file (hab_pre legal_entity_hab)
          = Some (Content (icp_data (hab_pre legal_entity_hab) legal_entity_key)))
    as Hfl.
  { unfold fs, as_artifacts. rewrite lookup_fmap.
    rewrite lookup_insert_ne by distinct_names. by rewrite lookup_insert_eq. }
  unfold seed_verifier_database, read_json. rewrite Hpath, Hfg, Hfq, Hfl. simpl.
  unfold load_inception_event. simpl. by rewrite Hvg, Hvq, Hvl.
Qed.

End Issuer.

(** *** From the script to the verifier *)

Lemma assoc_setitem_ne k k' v m :
  k ≠ k' → assoc k' (setitem k v m) = assoc k' m.
Proof.
  intros Hne.
  assert (String.eqb k' k = false) as Hf by (apply String.eqb_neq; congruence).
  induction m as [| [k0 v0] m IH]; simpl.
  - by rewrite Hf.
  - destruct (String.eqb k k0) eqn:Hk; simpl.
    + apply String.eqb_eq in Hk as <-. by rewrite Hf.
    + by rewrite IH.
Qed.

Lemma assoc_setitem_eq k v m : assoc k (setitem k v m) = Some v.
Proof.
  induction m as [| [k0 v0] m IH]; simpl.
  - by rewrite String.eqb_refl.
  - destruct (String.eqb k k0) eqn:Hk; simpl; [by rewrite String.eqb_refl |].
    by rewrite Hk.
Qed.

Lemma assoc_with_proof_ne k acdc signatures :
  k ≠ "p" → assoc k (with_proof acdc signatures) = assoc k (acdc_sad acdc).
Proof.
  intros Hne. destruct signatures; simpl; [done |].
  by apply assoc_setitem_ne.
Qed.

Section IssuerToVerifier.

Context (issuer : KeriIssuer) (keri : KeriLib).
Context (json_loads : string → result json) (py_str : json → string).

(** A refresh over a directory with a root inception record publishes
    that root and a key for it, whatever root was configured. *)
Lemma refresh_publishes_directory_root fs st R icp k0 rest v :
  fs !! gleif_incept_path = Some (Content icp) →
  getitem icp "i" = Ok (JStr R) →
  R ≠ "" →
  getitem icp "k" = Ok (JArr (k0 :: rest)) →
  Verfer keri k0 = Ok v →
  GLEIF_ROOT_AID (refresh_verifier_state keri fs st).2 = JStr R
  ∧ ∃ kever, root_key_state (refresh_verifier_state keri fs st).2 = Some kever
             ∧ verfers kever ≠ [].
Proof.
  intros Hfs Hi Hne Hk Hv.
  assert (get icp "i" = Ok (JStr R)) as Hget.
  { destruct icp as [| | | | | m]; try done. simpl in *.
    by destruct (assoc "i" m) as [x |]; [injection Hi as -> |]. }
  assert (inception_entry keri icp
          = Some (KStr R, [ {| pre := JStr R; verfers := [v] |} ])) as Hentry.
  { unfold inception_entry. rewrite Hi; simpl. rewrite Hk; simpl. by rewrite Hv. }
  assert (refresh_verifier_state keri fs st
          = (true, {| GLEIF_ROOT_AID := JStr R;
                      kevers := seed_verifier_database keri fs (kevers st) |})) as ->.
  { unfold refresh_verifier_state, read_json. rewrite Hfs, Hget. simpl.
    apply String.eqb_neq in Hne as ->. simpl. do 2 f_equal.
    destruct (GLEIF_ROOT_AID st) as [| | | r | |]; simpl; try done.
    destruct (String.eqb R r) eqn:He; simpl; [| done].
    by apply String.eqb_eq in He as ->. }
  simpl. split; [done |].
  unfold root_key_state, kevers_get; simpl.
  rewrite seed_verifier_database_put_all, lookup_put_all.
  assert (is_Some (written (KStr R) (seed_entries keri fs))) as [kevs Hw].
  { unfold seed_entries, read_json at 1. rewrite Hfs. simpl. rewrite Hentry.
    destruct (written (KStr R) _); [by eexists |].
    rewrite decide_True by done. by eexists. }
  rewrite Hw; simpl.
  destruct (written_single _ _ _ (seed_entries_single keri fs) Hw)
    as (aid' & ve & ->).
  by eexists.
Qed.

(** X23. The verifier verifies what the script writes, when its
    library lets the credential through. Take the directory a returning
    run leaves and submit the Legal Entity credential found in it, with
    no override and no expected DID. Suppose the issuer's library keeps
    the fields [i] and [a] of a body it is given, signs with at least
    one signature and names no credential after a file of the directory;
    and the verifier's library accepts the QVI identifier and the root's
    key, lets the credential through the structure stage (as it stands,
    or rebuilt with [makify=True] with at most [v] and [d] rewritten)
    and parses the dict that stage leaves. Then the result is verified
    with the chain Legal Entity, QVI, GLEIF of the run, whatever trust
    root the verifier was configured with, and the identifier reported
    is the [d] of the dict the structure stage leaves. *)
Theorem generated_credential_verifies args twin_wallet out0 out st
    gleif_hab qvi_hab legal_entity_hab gleif_key qvi_key legal_entity_key
    vg credential credential' s s' :
  main issuer args twin_wallet out0 = (Ok (), out) →
  makeHab issuer "gleif" = Ok gleif_hab →
  makeHab issuer "qvi" = Ok qvi_hab →
  makeHab issuer "legal-entity" = Ok legal_entity_hab →
  hab_key gleif_hab = Ok gleif_key →
  hab_key qvi_hab = Ok qvi_key →
  hab_key legal_entity_hab = Ok legal_entity_key →
  (∀ body acdc, makify issuer (JObj body) = Ok acdc →
     assoc "i" (acdc_sad acdc) = assoc "i" body
     ∧ assoc "a" (acdc_sad acdc) = assoc "a" body) →
  (∀ hab raw signatures, sign issuer hab raw = Ok signatures → signatures ≠ []) →
  (∀ body acdc, makify issuer body = Ok acdc →
     acdc_said acdc ≠ "gleif-incept.json" ∧ acdc_said acdc ≠ "qvi-credential.json") →
  hab_pre gleif_hab ≠ "" →
  hab_pre qvi_hab ≠ "" →
  Verfer keri (JStr gleif_key) = Ok vg →
  Prefixer keri (JStr (hab_pre qvi_hab)) = Ok () →
  as_artifacts json_loads out !! "legal-entity-credential.json"
  = Some (Content credential) →
  validate_credential_structure keri credential = (Valid s, credential') →
  (∀ k, k ≠ "v" → k ≠ "d" → getitem credential' k = getitem credential k) →
  SerderACDC keri credential' = Ok s' →
  ∃ credential_said,
    get credential' "d" = Ok credential_said
    ∧ verify_acdc_credential keri py_str (as_artifacts json_loads out)
        (refresh_verifier_state keri (as_artifacts json_loads out) st).2
        credential JNull JNull
      = Verified credential_said (JStr (hab_pre qvi_hab))
          [ {| level := "Legal Entity"; aid := JStr (hab_pre legal_entity_hab) |};
            {| level := "QVI"; aid := JStr (hab_pre qvi_hab) |};
            {| level := "GLEIF"; aid := JStr (hab_pre gleif_hab) |} ].
Proof.
  intros Hmain Hg Hq Hl Hkg Hkq Hkl Hkeep Hsign Hsaid Hng Hnq Hvg Hpq
    Hcred Hvalid Hkept Hs.
  destruct (main_returns _ _ _ _ _ _ _ _ _ _ _ Hmain Hg Hq Hl Hkg Hkq Hkl)
    as (raw & qss & qa & qsigs & dss & da & dsigs & sg & sq & sl
        & _ & _ & Hqa & _ & _ & Hda & Hdsigs & ->).
  destruct (Hsaid _ _ Hda) as [Hs1 Hs2].
  destruct (Hkeep _ _ Hqa) as [Hqi Hqa'].
  destruct (Hkeep _ _ Hda) as [Hdi Hda'].
  apply Hsign in Hdsigs.
  set (fs := as_artifacts json_loads _) in *.
  assert (fs !! gleif_incept_path
          = Some (Content (icp_data (hab_pre gleif_hab) gleif_key))) as Hfg.
  { unfold fs, as_artifacts. rewrite lookup_fmap.
    rewrite !lookup_insert_ne by distinct_names. by rewrite lookup_insert_eq. }
  assert (fs !! qvi_credential_path
          = Some (Content (JObj (with_proof qa qsigs)))) as Hfc.
  { unfold fs, as_artifacts. rewrite lookup_fmap.
    rewrite !lookup_insert_ne by distinct_names. by rewrite lookup_insert_eq. }
  assert (credential = JObj (with_proof da dsigs)) as ->.
  { unfold fs, as_artifacts in Hcred. rewrite lookup_fmap in Hcred.
    rewrite !(lookup_insert_ne _ "habitats.json"),
      !(lookup_insert_ne _ (icp_file _)),
      !(lookup_insert_ne _ "credential-said.txt") in Hcred by distinct_names.
    destruct (decide (acdc_said da = "legal-entity-credential.json")) as [He |].
    - rewrite He, lookup_insert_eq in Hcred. by injection Hcred as <-.
    - rewrite lookup_insert_ne, lookup_insert_eq in Hcred by done.
      by injection Hcred as <-. }
  destruct (refresh_publishes_directory_root fs st (hab_pre gleif_hab)
              (icp_data (hab_pre gleif_hab) gleif_key) (JStr gleif_key) [] vg)
    as (Hroot & Hkeys); [done .. |].
  destruct dsigs as [| sig dsigs]; [done |].
  assert (assoc "i" (with_proof qa qsigs) = Some (JStr (hab_pre qvi_hab))) as A1
    by (by rewrite assoc_with_proof_ne, Hqi).
  assert (assoc "a" (with_proof qa qsigs)
          = Some (JObj [("issuer", JStr (hab_pre gleif_hab));
                        ("issuee", JStr (hab_pre qvi_hab));
                        ("qualified", JBool true)])) as A2
    by (by rewrite assoc_with_proof_ne, Hqa').
  assert (assoc "i" (with_proof da (sig :: dsigs))
          = Some (JStr (hab_pre legal_entity_hab))) as A3
    by (by rewrite assoc_with_proof_ne, Hdi).
  assert (assoc "a" (with_proof da (sig :: dsigs))
          = Some (JObj [("alsoKnownAs", JArr [JStr (sanitize_did raw)])])) as A4
    by (by rewrite assoc_with_proof_ne, Hda').
  assert (assoc "p" (with_proof da (sig :: dsigs))
          = Some (JObj [("d", JStr sig)])) as A5
    by apply assoc_setitem_eq.
  set (C1 := with_proof qa qsigs) in *.
  set (C2 := with_proof da (sig :: dsigs)) in *.
  clearbody C1 C2.
  assert (getitem (JObj C2) "i" = Ok (JStr (hab_pre legal_entity_hab))) as B3
    by (simpl; by rewrite A3).
  assert (getitem (JObj C2) "p" = Ok (JObj [("d", JStr sig)])) as B5
    by (simpl; by rewrite A5).
  assert (embedded_issuer (JObj C2) = Ok JNull) as B4
    by (unfold embedded_issuer; simpl; by rewrite A4).
  assert (embedded_issuer credential' = Ok JNull) as B4'.
  { rewrite <- B4. eapply embedded_issuer_kept; [done | | by apply Hkept].
    by rewrite Hkept. }
  eapply (chain_verified_after_structure keri py_str fs
            (refresh_verifier_state keri fs st).2
            (JStr (hab_pre gleif_hab)) (JStr (hab_pre qvi_hab))
            (JStr (hab_pre legal_entity_hab))
            (JObj C1) (JObj C2) credential'
            s s' JNull (JObj [("d", JStr sig)]) 1).
  - done.
  - done.
  - simpl. by apply negb_true_iff, String.eqb_neq.
  - simpl. by apply negb_true_iff, String.eqb_neq.
  - done.
  - done.
  - simpl. by rewrite A1.
  - unfold embedded_issuer. simpl. by rewrite A2.
  - done.
  - done.
  - by rewrite Hkept.
  - done.
  - by right.
  - by rewrite Hkept.
  - done.
  - done.
Qed.

End IssuerToVerifier.

(** *** Runs of the script *)

Lemma assoc_set_field_ne k k' v m :
  k ≠ k' → assoc k' (Scenario.set_field k v m) = assoc k' m.
Proof.
  intros Hne.
  assert (String.eqb k' k = false) as Hf by (apply String.eqb_neq; congruence).
  induction m as [| [k0 v0] m IH]; simpl.
  - by rewrite Hf.
  - destruct (String.eqb k k0) eqn:Hk; simpl.
    + apply String.eqb_eq in Hk as <-. by rewrite Hf.
    + by rewrite IH.
Qed.

(** Called with no argument, the script writes nothing. *)
Lemma main_stops_before_writing_witness :
  ∃ msg,
    main IssuerScenario.issuer [] (Ok (JObj [("did", JStr "did:iota:0xabc")])) ∅
    = (Raise msg, ∅).
Proof. apply main_stops_before_writing. left. simpl. lia. Defined.

Lemma generated_directory_loads_witness :
  seed_verifier_database Scenario.keri IssuerScenario.store ∅
  = <[ KStr "Elegal-entity-aid" :=
         [ {| pre := JStr "Elegal-entity-aid";
              verfers := [MkVerfer "Dlegal-entity-key"] |} ] ]>
    (<[ KStr "Eqvi-aid" :=
          [ {| pre := JStr "Eqvi-aid"; verfers := [MkVerfer "Dqvi-key"] |} ] ]>
    (<[ KStr "Egleif-aid" :=
          [ {| pre := JStr "Egleif-aid"; verfers := [MkVerfer "Dgleif-key"] |} ] ]> ∅)).
Proof.
  apply (generated_directory_loads IssuerScenario.issuer Scenario.keri
           IssuerScenario.json_loads ["did:iota:0xabc"]
           (Ok (JObj [("did", JStr "did:iota:0xabc")])) ∅ IssuerScenario.out ∅
           (IssuerScenario.hab "gleif") (IssuerScenario.hab "qvi")
           (IssuerScenario.hab "legal-entity")
           "Dgleif-key" "Dqvi-key" "Dlegal-entity-key").
  - vm_compute. reflexivity.
  - reflexivity.
  - reflexivity.
  - reflexivity.
  - reflexivity.
  - reflexivity.
  - reflexivity.
  - reflexivity.
  - reflexivity.
  - reflexivity.
  - discriminate.
  - intros [| | | | | m] acdc; simpl; try discriminate.
    intros [= <-]. simpl. split; discriminate.
Defined.

(** The verifier starts with a trust root of its own, its library does
    not parse the signed credential as it stands and rebuilds it, and
    the credential of the run is still verified. *)
Lemma generated_credential_verifies_witness :
  ∃ credential_said,
    verify_acdc_credential Keripy.v11 Scenario.py_str IssuerScenario.store
      (refresh_verifier_state Keripy.v11 IssuerScenario.store
         {| GLEIF_ROOT_AID := JStr "Econfigured-root"; kevers := ∅ |}).2
      IssuerScenario.credential JNull JNull
    = Verified credential_said (JStr "Eqvi-aid")
        [ {| level := "Legal Entity"; aid := JStr "Elegal-entity-aid" |};
          {| level := "QVI"; aid := JStr "Eqvi-aid" |};
          {| level := "GLEIF"; aid := JStr "Egleif-aid" |} ].
Proof.
  assert (∃ s credential',
            validate_credential_structure Keripy.v11 IssuerScenario.credential
            = (Valid s, credential')
            ∧ (∀ k, k ≠ "v" → k ≠ "d" →
                 getitem credential' k = getitem IssuerScenario.credential k)
            ∧ SerderACDC Keripy.v11 credential' = Ok s)
    as (s & credential' & Hvalid & Hkept & Hs).
  { eexists _, _. split_and!.
    - vm_compute. reflexivity.
    - intros k Hv Hd.
      let c := eval vm_compute in IssuerScenario.credential in
      change IssuerScenario.credential with c.
      simpl.
      apply String.eqb_neq in Hv as ->. by apply String.eqb_neq in Hd as ->.
    - vm_compute. reflexivity. }
  destruct (generated_credential_verifies IssuerScenario.issuer Keripy.v11
              IssuerScenario.json_loads Scenario.py_str ["did:iota:0xabc"]
              (Ok (JObj [("did", JStr "did:iota:0xabc")])) ∅ IssuerScenario.out
              {| GLEIF_ROOT_AID := JStr "Econfigured-root"; kevers := ∅ |}
              (IssuerScenario.hab "gleif") (IssuerScenario.hab "qvi")
              (IssuerScenario.hab "legal-entity")
              "Dgleif-key" "Dqvi-key" "Dlegal-entity-key"
              (MkVerfer "Dgleif-key") IssuerScenario.credential credential' s s)
    as (d & _ & Hverified).
  - vm_compute. reflexivity.
  - reflexivity.
  - reflexivity.
  - reflexivity.
  - reflexivity.
  - reflexivity.
  - reflexivity.
  - intros body acdc [= <-]. simpl. by rewrite !assoc_set_field_ne.
  - intros hab raw signatures. simpl. destruct (hab_key hab); [| done].
    by intros [= <-].
  - intros [| | | | | m] acdc; simpl; try discriminate.
    intros [= <-]. simpl. split; discriminate.
  - discriminate.
  - discriminate.
  - reflexivity.
  - reflexivity.
  - vm_compute. reflexivity.
  - exact Hvalid.
  - exact Hkept.
  - exact Hs.
  - by exists d.
Defined.

(** *** More on the script and the endpoint *)

(** X24. The script is not atomic: when the library fails on the first
    schema, after the habitats and their keys were obtained, the two
    inception files are already in the directory and nothing else is. *)
Theorem main_partial_directory issuer raw_did tw did out0
    gleif_hab qvi_hab legal_entity_hab gleif_key qvi_key msg :
  getitem tw "did" = Ok did →
  makeHab issuer "gleif" = Ok gleif_hab →
  makeHab issuer "qvi" = Ok qvi_hab →
  makeHab issuer "legal-entity" = Ok legal_entity_hab →
  hab_key gleif_hab = Ok gleif_key →
  hab_key qvi_hab = Ok qvi_key →
  Schemer issuer qvi_schema = Raise msg →
  main issuer [raw_did] (Ok tw) out0
  = (Raise msg,
     <[ "qvi-incept.json" := JsonFile (icp_data (hab_pre qvi_hab) qvi_key) ]>
     (<[ "gleif-incept.json" := JsonFile (icp_data (hab_pre gleif_hab) gleif_key) ]>
      out0)).
Proof.
  intros Hdid Hg Hq Hl Hkg Hkq Hs.
  unfold main, script_bind, call, write.
  by rewrite Hdid, Hg, Hq, Hl, Hkg, Hkq, Hs.
Qed.

Lemma main_partial_directory_witness :
  main {| makeHab := makeHab IssuerScenario.issuer;
          Schemer sed := Raise "Invalid schema";
          makify := makify IssuerScenario.issuer;
          sign := sign IssuerScenario.issuer |}
    ["did:iota:0xabc"] (Ok (JObj [("did", JStr "did:iota:0xabc")])) ∅
  = (Raise "Invalid schema",
     <[ "qvi-incept.json" := JsonFile (icp_data "Eqvi-aid" "Dqvi-key") ]>
     (<[ "gleif-incept.json" := JsonFile (icp_data "Egleif-aid" "Dgleif-key") ]> ∅)).
Proof.
  by apply (main_partial_directory _ _ _ (JStr "did:iota:0xabc") _
              (IssuerScenario.hab "gleif") (IssuerScenario.hab "qvi")
              (IssuerScenario.hab "legal-entity")).
Defined.

(** X25. The endpoint answers with status 200, 400 or 500 only, and the
    [success] field of the body is true exactly in a 200 response. *)
Theorem verify_credential_statuses keri py_str fs st request :
  let r := (verify_credential keri py_str fs st request).1 in
  (status r = 200 ∨ status r = 400 ∨ status r = 500)%Z
  ∧ (get (body r) "success" = Ok (JBool true) ↔ status r = 200%Z)
  ∧ (get (body r) "success" = Ok (JBool false) ↔ status r ≠ 200%Z).
Proof.
  unfold verify_credential.
  destruct request as [data | msg]; simpl; [| by split_and!; [auto | ..]].
  destruct (truthy data); simpl; [| by split_and!; [auto | ..]].
  destruct (contains "credential" data) as [[|] | msg]; simpl;
    [| by split_and!; [auto | ..] ..].
  destruct (getitem data "credential") as [credential | msg]; simpl;
    [| by split_and!; [auto | ..]].
  destruct (get data "issuer_aid") as [issuer_aid | msg]; simpl;
    [| by split_and!; [auto | ..]].
  destruct (get data "expected_did") as [expected_did | msg]; simpl;
    [| by split_and!; [auto | ..]].
  destruct (get_default credential "d" (JStr "unknown")) as [d0 | msg]; simpl;
    [| by split_and!; [auto | ..]].
  destruct (verify_acdc_credential keri py_str fs _ credential issuer_aid expected_did);
    simpl; by split_and!; [auto | ..].
Qed.
